(** * The buildpack registry cache ([internal/registry/registry.go])

    A shallow embedding of the registry cache of [pack]: the on-disk mirror of
    the registry index ([createCache], [validateCache], [Initialize],
    [Refresh]), the reader of an index file ([readEntry]), the check of an
    entry's address ([Validate]) and the resolution of a buildpack coordinate
    ([LocateBuildpack]).

    Go strings are byte sequences, so they are [string] (lists of [ascii])
    and [len] is [String.length].  Go's [int] results of comparisons are [Z].
    Calls to the operating system and to go-git go through an interface
    ([OS]) and every call is recorded in a trace. *)

From Stdlib Require Import ZArith List String Ascii Bool Lia PeanoNat.
Import ListNotations.

Open Scope string_scope.
Open Scope Z_scope.

(* ================================================================= *)
(** ** Comparison functions that are weak orders *)

(** The three-way comparisons of the version library are compositions of
    comparisons on lengths and on byte strings.  [Good] collects what the
    selection loop of [LocateBuildpack] needs from them. *)

Module Cmp.

Record Good {A : Type} (c : A -> A -> comparison) : Prop := {
  good_opp : forall x y, c y x = CompOpp (c x y);
  good_trans : forall x y z, c x y <> Gt -> c y z <> Gt -> c x z <> Gt
}.

(** A comparison is [Strict] when only equal values compare equal. *)
Definition Strict {A : Type} (c : A -> A -> comparison) : Prop :=
  forall x y, c x y = Eq -> x = y.

Definition toZ (c : comparison) : Z :=
  match c with Lt => -1 | Eq => 0 | Gt => 1 end.

Definition lex {A B : Type} (ca : A -> A -> comparison) (cb : B -> B -> comparison)
  (x y : A * B) : comparison :=
  match ca (fst x) (fst y) with
  | Eq => cb (snd x) (snd y)
  | r => r
  end.

(** Lexicographic order on lists; a proper prefix is smaller. *)
Fixpoint seq {A : Type} (c : A -> A -> comparison) (l m : list A) : comparison :=
  match l, m with
  | [], [] => Eq
  | [], _ :: _ => Lt
  | _ :: _, [] => Gt
  | x :: l', y :: m' =>
      match c x y with
      | Eq => seq c l' m'
      | r => r
      end
  end.

(** [None] below every [Some]. *)
Definition bot {A : Type} (c : A -> A -> comparison) (x y : option A) : comparison :=
  match x, y with
  | None, None => Eq
  | None, Some _ => Lt
  | Some _, None => Gt
  | Some a, Some b => c a b
  end.

(** [None] above every [Some]. *)
Definition top {A : Type} (c : A -> A -> comparison) (x y : option A) : comparison :=
  match x, y with
  | None, None => Eq
  | None, Some _ => Gt
  | Some _, None => Lt
  | Some a, Some b => c a b
  end.

Definition on {A B : Type} (f : A -> B) (c : B -> B -> comparison) (x y : A) : comparison :=
  c (f x) (f y).

End Cmp.

(* ================================================================= *)
(** ** The version comparison of [golang.org/x/mod/semver] *)

(** [LocateBuildpack] orders versions with [semver.Compare].  That package
    is a dependency of the repository, not a part of it; the definitions
    below follow its functions [parse], [parseInt], [parsePrerelease],
    [parseBuild], [compareInt], [comparePrerelease], [IsValid] and
    [Compare].  Indices into a string become structural recursion on it. *)

Module semver.

Local Open Scope string_scope.

Definition isDigit (c : ascii) : bool := (("0" <=? c) && (c <=? "9"))%char.

Definition isIdentChar (c : ascii) : bool :=
  ((("A" <=? c) && (c <=? "Z")) || (("a" <=? c) && (c <=? "z"))
   || (("0" <=? c) && (c <=? "9")) || (c =? "-"))%char.

(** [i := 0; for i < len(v) && '0' <= v[i] && v[i] <= '9' { i++ }]:
    the result is [(v[:i], v[i:])]. *)
Fixpoint digits (v : string) : string * string :=
  match v with
  | String c v' =>
      if isDigit c then let (t, rest) := digits v' in (String c t, rest)
      else ("", v)
  | "" => ("", "")
  end.

Definition parseInt (v : string) : option (string * string) :=
  match v with
  | "" => None
  | String c v' =>
      if negb (isDigit c) then None
      else
        let (t, rest) := digits v' in
        if (c =? "0")%char && negb (String.length t =? 0)%nat then None
        else Some (String c t, rest)
  end.

Definition isNum (v : string) : bool := (snd (digits v) =? "").

Definition isBadNum (v : string) : bool :=
  (snd (digits v) =? "") && (1 <? String.length v)%nat
  && match v with String c _ => (c =? "0")%char | "" => false end.

(** The loop of [parsePrerelease] from index 1 on: [cur] is [v[start:i]],
    the identifier read so far; the result is the part of the string up to
    [i] and the rest. *)
Fixpoint scanPrerelease (cur v : string) : option (string * string) :=
  match v with
  | "" => if (cur =? "") || isBadNum cur then None else Some ("", "")
  | String c v' =>
      if (c =? "+")%char then
        if (cur =? "") || isBadNum cur then None else Some ("", v)
      else if negb (isIdentChar c) && negb (c =? ".")%char then None
      else if (c =? ".")%char then
        if (cur =? "") || isBadNum cur then None
        else match scanPrerelease "" v' with
             | Some (t, rest) => Some (String c t, rest)
             | None => None
             end
      else match scanPrerelease (cur ++ String c "") v' with
           | Some (t, rest) => Some (String c t, rest)
           | None => None
           end
  end.

Definition parsePrerelease (v : string) : option (string * string) :=
  match v with
  | String c v' =>
      if negb (c =? "-")%char then None
      else match scanPrerelease "" v' with
           | Some (t, rest) => Some (String c t, rest)
           | None => None
           end
  | "" => None
  end.

Fixpoint scanBuild (cur v : string) : option (string * string) :=
  match v with
  | "" => if (cur =? "") then None else Some ("", "")
  | String c v' =>
      if negb (isIdentChar c) && negb (c =? ".")%char then None
      else if (c =? ".")%char then
        if (cur =? "") then None
        else match scanBuild "" v' with
             | Some (t, rest) => Some (String c t, rest)
             | None => None
             end
      else match scanBuild (cur ++ String c "") v' with
           | Some (t, rest) => Some (String c t, rest)
           | None => None
           end
  end.

Definition parseBuild (v : string) : option (string * string) :=
  match v with
  | String c v' =>
      if negb (c =? "+")%char then None
      else match scanBuild "" v' with
           | Some (t, rest) => Some (String c t, rest)
           | None => None
           end
  | "" => None
  end.

Record parsed : Type := {
  major : string;
  minor : string;
  patch : string;
  short : string;
  prerelease : string;
  build : string
}.

Definition startsWith (c : ascii) (v : string) : bool :=
  match v with String d _ => (d =? c)%char | "" => false end.

(** The end of [parse], once major, minor and patch are read. *)
Definition parseTail (ma mi pa v : string) : option parsed :=
  match (if startsWith "-" v then parsePrerelease v else Some ("", v)) with
  | None => None
  | Some (pre, v) =>
      match (if startsWith "+" v then parseBuild v else Some ("", v)) with
      | None => None
      | Some (bu, v) =>
          if negb (v =? "") then None
          else Some {| major := ma; minor := mi; patch := pa; short := "";
                       prerelease := pre; build := bu |}
      end
  end.

Definition parse (v : string) : option parsed :=
  match v with
  | "" => None
  | String c v1 =>
      if negb (c =? "v")%char then None
      else
        match parseInt v1 with
        | None => None
        | Some (ma, v) =>
            match v with
            | "" => Some {| major := ma; minor := "0"; patch := "0"; short := ".0.0";
                            prerelease := ""; build := "" |}
            | String c v2 =>
                if negb (c =? ".")%char then None
                else
                  match parseInt v2 with
                  | None => None
                  | Some (mi, v) =>
                      match v with
                      | "" => Some {| major := ma; minor := mi; patch := "0";
                                      short := ".0"; prerelease := ""; build := "" |}
                      | String c v3 =>
                          if negb (c =? ".")%char then None
                          else
                            match parseInt v3 with
                            | None => None
                            | Some (pa, v) => parseTail ma mi pa v
                            end
                      end
                  end
            end
        end
  end.

Definition IsValid (v : string) : bool :=
  match parse v with Some _ => true | None => false end.

Definition compareInt (x y : string) : Z :=
  if x =? y then 0
  else if (String.length x <? String.length y)%nat then -1
  else if (String.length y <? String.length x)%nat then 1
  else if (x <? y) then -1
  else 1.

(** [i := 0; for i < len(x) && x[i] != '.' { i++ }; return x[:i], x[i:]] *)
Fixpoint nextIdent (x : string) : string * string :=
  match x with
  | "" => ("", "")
  | String c x' =>
      if (c =? ".")%char then ("", x)
      else let (dx, rest) := nextIdent x' in (String c dx, rest)
  end.

(** The identifiers that the loop of [comparePrerelease] meets in [x]: each
    round drops one byte (the leading [-], then a [.]) and takes
    [nextIdent] of what follows. *)
Fixpoint splitDots (x : string) : list string :=
  match x with
  | "" => [""]
  | String c x' =>
      if (c =? ".")%char then "" :: splitDots x'
      else match splitDots x' with
           | dx :: l => String c dx :: l
           | [] => [String c ""]
           end
  end.

Definition idents (x : string) : list string :=
  match x with
  | "" => []
  | String _ x' => splitDots x'
  end.

(** The body of [if dx != dy { ... }] in [comparePrerelease]. *)
Definition compareIdent (dx dy : string) : Z :=
  let ix := isNum dx in
  let iy := isNum dy in
  if negb (Bool.eqb ix iy) then (if ix then -1 else 1)
  else if ix && (String.length dx <? String.length dy)%nat then -1
  else if ix && (String.length dy <? String.length dx)%nat then 1
  else if (dx <? dy) then -1
  else 1.

(** The loop [for x != "" && y != ""] and the test after it, on the
    identifiers still to read on each side. *)
Fixpoint compareIdents (lx ly : list string) : Z :=
  match lx, ly with
  | [], _ => -1
  | _ :: _, [] => 1
  | dx :: lx', dy :: ly' =>
      if dx =? dy then compareIdents lx' ly' else compareIdent dx dy
  end.

Definition comparePrerelease (x y : string) : Z :=
  if x =? y then 0
  else if x =? "" then 1
  else if y =? "" then -1
  else compareIdents (idents x) (idents y).

Definition Compare (v w : string) : Z :=
  match parse v, parse w with
  | None, None => 0
  | None, Some _ => -1
  | Some _, None => 1
  | Some pv, Some pw =>
      let c := compareInt (major pv) (major pw) in
      if negb (c =? 0)%Z then c
      else
        let c := compareInt (minor pv) (minor pw) in
        if negb (c =? 0)%Z then c
        else
          let c := compareInt (patch pv) (patch pw) in
          if negb (c =? 0)%Z then c
          else comparePrerelease (prerelease pv) (prerelease pw)
  end.

End semver.

(* ================================================================= *)
(** ** Keys of the version comparison *)

(** Each comparison of the version library compares keys in a lexicographic
    product: lengths before bytes for numbers, numeric identifiers before
    the others, the list of identifiers of a prerelease, and unparsable
    versions below the parsed ones. *)

Module semver_keys.

Import semver.
Local Open Scope string_scope.

Definition intc : string -> string -> comparison :=
  Cmp.on (fun x => (String.length x, x)) (Cmp.lex Nat.compare String.compare).

Definition identc : string -> string -> comparison :=
  Cmp.on (fun d => (negb (isNum d), ((if isNum d then String.length d else 0%nat), d)))
         (Cmp.lex Bool.compare (Cmp.lex Nat.compare String.compare)).

Definition prekey (x : string) : option (list string) :=
  match x with "" => None | String _ _ => Some (idents x) end.

Definition prec : string -> string -> comparison :=
  Cmp.on prekey (Cmp.top (Cmp.seq identc)).

Definition verkey (v : string) : option (string * (string * (string * string))) :=
  match parse v with
  | Some p => Some (major p, (minor p, (patch p, prerelease p)))
  | None => None
  end.

Definition verc : string -> string -> comparison :=
  Cmp.on verkey (Cmp.bot (Cmp.lex intc (Cmp.lex intc (Cmp.lex intc prec)))).

(** [splitDots] loses nothing: joining its result with dots gives the
    string back. *)
Fixpoint joinDots (l : list string) : string :=
  match l with
  | [] => ""
  | d :: l' => match l' with [] => d | _ :: _ => d ++ String "." (joinDots l') end
  end.

(** The prerelease of a parsed version is empty or starts with a hyphen. *)
Definition hyphened (x : string) : Prop := x = "" \/ exists x', x = String "-" x'.

End semver_keys.

(* ================================================================= *)
(** ** Errors and data of the registry *)

(** A Go [error] value; [nil] is [None] of [option error]. *)
Inductive error : Type :=
| errors_New (msg : string)
    (** [errors.New(msg)] and [fmt.Errorf] with the message formatted *)
| errors_Wrap (cause : error) (msg : string)
    (** [errors.Wrap(cause, msg)] and [errors.Wrapf] *)
| os_ErrNotExist (path : string)
    (** the errors of the operating system for which [os.IsNotExist] holds *)
| git_NoErrAlreadyUpToDate
    (** the sentinel of go-git *)
| external_error (msg : string).
    (** any other failure of the operating system or of a library *)

Definition os_IsNotExist (err : error) : bool :=
  match err with os_ErrNotExist _ => true | _ => false end.

(** [err.Error()]: a wrapped error prints its message, a colon and its cause. *)
Fixpoint Error (err : error) : string :=
  match err with
  | errors_New msg => msg
  | errors_Wrap cause msg => msg ++ ": " ++ Error cause
  | os_ErrNotExist path => "stat " ++ path ++ ": no such file or directory"
  | git_NoErrAlreadyUpToDate => "already up-to-date"
  | external_error msg => msg
  end.

Inductive result (A : Type) : Type :=
| Ok (a : A)
| Err (err : error).
Arguments Ok {A} a.
Arguments Err {A} err.

Record Buildpack : Type := {
  Namespace : string;
  Name : string;
  Version : string;
  Yanked : bool;
  Address : string
}.

(** The zero value [Buildpack{}]. *)
Definition Buildpack_zero : Buildpack :=
  {| Namespace := ""; Name := ""; Version := ""; Yanked := false; Address := "" |}.

Record Entry : Type := { Buildpacks : list Buildpack }.

(** The zero value [Entry{}]. *)
Definition Entry_zero : Entry := {| Buildpacks := [] |}.

Record RegistryCache : Type := {
  URL : string;
  Root : string
}.

(** A remote of a repository, as far as [validateCache] looks at it:
    [remote.Config().URLs]. *)
Record Remote : Type := { Config_URLs : list string }.

(* ================================================================= *)
(** ** Collaborators *)

(** Pure functions of other packages. *)
Class Libs : Type := {
  (** [filepath.Join(elem...)] *)
  filepath_Join : list string -> string;
  (** [json.Unmarshal([]byte(text), &bp)] on a fresh [bp] *)
  json_Unmarshal : string -> result Buildpack;
  (** [buildpack.ParseRegistryID(bp)]: namespace, name and version *)
  ParseRegistryID : string -> result (string * string * string);
  (** [ggcrname.ParseReference(s, ggcrname.WeakValidation)], its error *)
  ggcrname_ParseReference : string -> option error;
  (** [ggcrname.NewDigest(s)], its error *)
  ggcrname_NewDigest : string -> option error
}.

(** The file system and go-git.  Each operation answers in a state of the
    world and may change it.  [bufio_Scan] stands for a whole scanner
    session on a file: the texts of the tokens for which [scanner.Scan()]
    is true, in order, and the value of [scanner.Err()] after them. *)
Class OS : Type := {
  World : Type;
  Repository : Type;
  Worktree : Type;
  File : Type;
  sys_Stat : string -> World -> option error * World;
  sys_TempDir : string -> string -> World -> result string * World;
  sys_PlainClone : string -> bool -> string -> World -> result Repository * World;
  sys_Worktree : Repository -> World -> result Worktree * World;
  Filesystem_Root : Worktree -> string;
  sys_Rename : string -> string -> World -> option error * World;
  sys_PlainOpen : string -> World -> result Repository * World;
  sys_Remotes : Repository -> World -> result (list Remote) * World;
  sys_RemoveAll : string -> World -> option error * World;
  sys_Pull : Worktree -> string -> World -> option error * World;
  sys_Open : string -> World -> result File * World;
  sys_Scan : File -> World -> (list string * option error) * World;
  sys_Close : File -> World -> option error * World
}.

(** The calls a run makes, with their string arguments. *)
Inductive Call : Type :=
| Call_Stat (path : string)
| Call_TempDir (dir prefix : string)
| Call_PlainClone (path : string) (isBare : bool) (url : string)
| Call_Worktree
| Call_Rename (oldpath newpath : string)
| Call_PlainOpen (path : string)
| Call_Remotes
| Call_RemoveAll (path : string)
| Call_Pull (remoteName : string)
| Call_Open (path : string)
| Call_Scan
| Call_Close.

Section Registry.

Context {L : Libs} {O : OS}.

(** The state a run threads: the world and the calls made so far. *)
Record State : Type := {
  world : World;
  trace : list Call
}.

Definition M (A : Type) : Type := State -> A * State.

Definition ret {A : Type} (a : A) : M A := fun st => (a, st).

Definition bind {A B : Type} (m : M A) (k : A -> M B) : M B :=
  fun st => let (a, st') := m st in k a st'.

Definition call {A : Type} (c : Call) (op : World -> A * World) : M A :=
  fun st =>
    let (a, w) := op (world st) in
    (a, {| world := w; trace := (trace st ++ [c])%list |}).

Notation "'let*' x ':=' m 'in' k" := (bind m (fun x => k))
  (at level 10, x pattern, m at level 100, k at level 200).

Definition os_Stat (path : string) : M (option error) :=
  call (Call_Stat path) (sys_Stat path).
Definition ioutil_TempDir (dir prefix : string) : M (result string) :=
  call (Call_TempDir dir prefix) (sys_TempDir dir prefix).
Definition git_PlainClone (path : string) (isBare : bool) (url : string)
  : M (result Repository) :=
  call (Call_PlainClone path isBare url) (sys_PlainClone path isBare url).
Definition repository_Worktree (repository : Repository) : M (result Worktree) :=
  call Call_Worktree (sys_Worktree repository).
Definition os_Rename (oldpath newpath : string) : M (option error) :=
  call (Call_Rename oldpath newpath) (sys_Rename oldpath newpath).
Definition git_PlainOpen (path : string) : M (result Repository) :=
  call (Call_PlainOpen path) (sys_PlainOpen path).
Definition repository_Remotes (repository : Repository) : M (result (list Remote)) :=
  call Call_Remotes (sys_Remotes repository).
Definition os_RemoveAll (path : string) : M (option error) :=
  call (Call_RemoveAll path) (sys_RemoveAll path).
Definition worktree_Pull (w : Worktree) (remoteName : string) : M (option error) :=
  call (Call_Pull remoteName) (sys_Pull w remoteName).
Definition os_Open (path : string) : M (result File) :=
  call (Call_Open path) (sys_Open path).
Definition bufio_Scan (file : File) : M (list string * option error) :=
  call Call_Scan (sys_Scan file).
Definition file_Close (file : File) : M (option error) :=
  call Call_Close (sys_Close file).

(* ================================================================= *)
(** ** The mirror of the registry index *)

Definition createCache (r : RegistryCache) : M (option error) :=
  let* root := ioutil_TempDir "" "registry" in
  match root with
  | Err err => ret (Some err)
  | Ok root =>
      let* repository := git_PlainClone root false (URL r) in
      match repository with
      | Err err => ret (Some err)
      | Ok repository =>
          let* w := repository_Worktree repository in
          match w with
          | Err err => ret (Some err)
          | Ok w => os_Rename (Filesystem_Root w) (Root r)
          end
      end
  end.

(** [remotes[0]] and [URLs[0]] are read only where the tests on the lengths
    before them have passed, so [nth] never takes its default there. *)
Definition validateCache (r : RegistryCache) : M (option error) :=
  let* repository := git_PlainOpen (Root r) in
  match repository with
  | Err err => ret (Some (errors_Wrap err "could not open registry cache"))
  | Ok repository =>
      let* remotes := repository_Remotes repository in
      match remotes with
      | Err err => ret (Some (errors_Wrap err "could not access registry cache"))
      | Ok remotes =>
          let remotes0 := nth 0 remotes {| Config_URLs := [] |} in
          if negb (List.length remotes =? 1)%nat
             || negb (List.length (Config_URLs remotes0) =? 1)%nat
          then ret (Some (errors_New "invalid registry cache remotes"))
          else if negb (nth 0 (Config_URLs remotes0) "" =? URL r)%string
          then ret (Some (errors_New "invalid registry cache origin"))
          else ret None
      end
  end.

Definition Initialize (r : RegistryCache) : M (option error) :=
  let validate : M (option error) :=
    let* err := validateCache r in
    match err with
    | Some _ =>
        let* err := os_RemoveAll (Root r) in
        match err with
        | Some err => ret (Some (errors_Wrap err "could not reset registry cache"))
        | None =>
            let* err := createCache r in
            match err with
            | Some err => ret (Some (errors_Wrap err "could not create registry cache"))
            | None => ret None
            end
        end
    | None => ret None
    end in
  let* err := os_Stat (Root r) in
  match err with
  | Some err =>
      if os_IsNotExist err then
        let* err := createCache r in
        match err with
        | Some err => ret (Some (errors_Wrap err "could not create registry cache"))
        | None => validate
        end
      else validate
  | None => validate
  end.

Definition Refresh (r : RegistryCache) : M (option error) :=
  let* err := Initialize r in
  match err with
  | Some err => ret (Some err)
  | None =>
      let* repository := git_PlainOpen (Root r) in
      match repository with
      | Err err => ret (Some (errors_Wrap err ("could not open (" ++ Root r ++ ")")))
      | Ok repository =>
          let* w := repository_Worktree repository in
          match w with
          | Err err => ret (Some (errors_Wrap err ("could not read (" ++ Root r ++ ")")))
          | Ok w =>
              let* err := worktree_Pull w "origin" in
              match err with
              | Some git_NoErrAlreadyUpToDate => ret None
              | _ => ret err
              end
          end
      end
  end.

(* ================================================================= *)
(** ** Reading an index file *)

(** The [switch] at the head of [readEntry]: the directory of the index
    file of [name].  [name[:2]] is [substring 0 2 name], [name[2:]] is
    [substring 2 (len(name) - 2) name], [name[2:4]] is [substring 2 2 name]. *)
Definition indexDir (name : string) : string :=
  if (String.length name <? 3)%nat then name
  else if (String.length name <? 4)%nat then
    filepath_Join [substring 0 2 name; substring 2 (String.length name - 2) name]
  else filepath_Join [substring 0 2 name; substring 2 2 name].

(** The loop [for scanner.Scan() { ... }] over the tokens of the file: the
    entry collected when the loop ends, or the error of the first line that
    does not parse. *)
Fixpoint scanLines (ns name : string) (entry : Entry) (lines : list string)
  : result Entry :=
  match lines with
  | [] => Ok entry
  | text :: lines' =>
      match json_Unmarshal text with
      | Err err =>
          Err (errors_Wrap err ("could not parse index for buildpack: " ++ ns ++ "/" ++ name))
      | Ok bp =>
          scanLines ns name {| Buildpacks := (Buildpacks entry ++ [bp])%list |} lines'
      end
  end.

Definition readEntry (r : RegistryCache) (ns name version : string)
  : M (Entry * option error) :=
  let index := filepath_Join [Root r; indexDir name; ns ++ "_" ++ name] in
  let* err := os_Stat index in
  match err with
  | Some err =>
      ret (Entry_zero,
           Some (errors_Wrap err ("could not find buildpack: " ++ ns ++ "/" ++ name)))
  | None =>
      let* file := os_Open index in
      match file with
      | Err err =>
          ret (Entry_zero,
               Some (errors_Wrap err
                       ("could not open index for buildpack: " ++ ns ++ "/" ++ name)))
      | Ok file =>
          let* scanned := bufio_Scan file in
          let* _ := file_Close file in
          match scanLines ns name Entry_zero (fst scanned) with
          | Err err => ret (Entry_zero, Some err)
          | Ok entry =>
              match snd scanned with
              | Some err =>
                  ret (entry,
                       Some (errors_Wrap err
                               ("could not read index for buildpack: " ++ ns ++ "/" ++ name)))
              | None => ret (entry, None)
              end
          end
      end
  end.

(* ================================================================= *)
(** ** Validation of an entry and resolution of a coordinate *)

Definition Validate (b : Buildpack) : option error :=
  if (Address b =? "")%string then Some (errors_New "address is a required field")
  else
    match ggcrname_ParseReference (Address b) with
    | Some err => Some err
    | None =>
        match ggcrname_NewDigest (Address b) with
        | Some _ => Some (errors_New ("'" ++ Address b ++ "' is not a digest reference"))
        | None => None
        end
    end.

(** One round of a loop that keeps the first of the greatest elements for
    a three-way comparison [c]. *)
Definition keep {A : Type} (c : A -> A -> Z) (h x : A) : A :=
  if 0 <? c x h then x else h.

(** One round of the loop over [entry.Buildpacks[1:]]. *)
Definition higher (highestVersion bp : Buildpack) : Buildpack :=
  if (0 <? semver.Compare ("v" ++ Version bp) ("v" ++ Version highestVersion))
  then bp else highestVersion.

Definition LocateBuildpack (r : RegistryCache) (bp : string)
  : M (Buildpack * option error) :=
  let* err := Refresh r in
  match err with
  | Some err => ret (Buildpack_zero, Some (errors_Wrap err "refreshing cache"))
  | None =>
      match ParseRegistryID bp with
      | Err err => ret (Buildpack_zero, Some err)
      | Ok (ns, name, version) =>
          let* read := readEntry r ns name version in
          let (entry, err) := read in
          match err with
          | Some err => ret (Buildpack_zero, Some (errors_Wrap err "reading entry"))
          | None =>
              if (0 <? List.length (Buildpacks entry))%nat then
                if (version =? "")%string then
                  let highestVersion := nth 0 (Buildpacks entry) Buildpack_zero in
                  let highestVersion :=
                    if (1 <? List.length (Buildpacks entry))%nat
                    then fold_left higher (skipn 1 (Buildpacks entry)) highestVersion
                    else highestVersion in
                  ret (highestVersion, None)
                else
                  match find (fun bpIndex => (Version bpIndex =? version)%string)
                             (Buildpacks entry) with
                  | Some bpIndex => ret (bpIndex, None)
                  | None =>
                      ret (Buildpack_zero,
                           Some (errors_New ("could not find version for buildpack: " ++ bp)))
                  end
              else
                ret (Buildpack_zero,
                     Some (errors_New ("no entries for buildpack: " ++ bp)))
          end
      end
  end.

(** The comparison of two entries in the loop of [LocateBuildpack]. *)
Definition compareVersions (b1 b2 : Buildpack) : Z :=
  semver.Compare ("v" ++ Version b1) ("v" ++ Version b2).

(** What [LocateBuildpack] picks from the entries read, for a requested
    version: the body of the function after [readEntry] has succeeded. *)
Definition selected (bp version : string) (entries : list Buildpack)
  : Buildpack * option error :=
  match entries with
  | [] => (Buildpack_zero, Some (errors_New ("no entries for buildpack: " ++ bp)))
  | first :: others =>
      if (version =? "")%string then (fold_left higher others first, None)
      else
        match find (fun bpIndex => (Version bpIndex =? version)%string) entries with
        | Some bpIndex => (bpIndex, None)
        | None =>
            (Buildpack_zero,
             Some (errors_New ("could not find version for buildpack: " ++ bp)))
        end
  end.

Definition indexPath (r : RegistryCache) (ns name : string) : string :=
  filepath_Join [Root r; indexDir name; ns ++ "_" ++ name].

(** The calls that [createCache] makes. *)
Definition creation_call (c : Call) : Prop :=
  match c with
  | Call_TempDir _ _ | Call_PlainClone _ _ _ | Call_Worktree | Call_Rename _ _ => True
  | _ => False
  end.

(** The mirror at the root of [r] is valid when it opens and has exactly
    one remote with exactly one URL, the URL of [r]. *)
Definition valid_remotes (r : RegistryCache) (remotes : list Remote) : Prop :=
  exists remote, remotes = [remote] /\ Config_URLs remote = [URL r].

(** The ways in which the mirror at the root of [r] fails validation: it
    does not open, its remotes cannot be listed, it has no remote or several,
    its remote has no URL or several, or the URL is not the one of [r]. *)
Inductive invalid_mirror (r : RegistryCache) (st : State) : Prop :=
| invalid_open err s1 :
    git_PlainOpen (Root r) st = (Err err, s1) -> invalid_mirror r st
| invalid_access repository s1 err s2 :
    git_PlainOpen (Root r) st = (Ok repository, s1) ->
    repository_Remotes repository s1 = (Err err, s2) -> invalid_mirror r st
| invalid_remotes repository s1 remotes s2 :
    git_PlainOpen (Root r) st = (Ok repository, s1) ->
    repository_Remotes repository s1 = (Ok remotes, s2) ->
    List.length remotes <> 1%nat -> invalid_mirror r st
| invalid_urls repository s1 remote s2 :
    git_PlainOpen (Root r) st = (Ok repository, s1) ->
    repository_Remotes repository s1 = (Ok [remote], s2) ->
    List.length (Config_URLs remote) <> 1%nat -> invalid_mirror r st
| invalid_origin repository s1 remote s2 url :
    git_PlainOpen (Root r) st = (Ok repository, s1) ->
    repository_Remotes repository s1 = (Ok [remote], s2) ->
    Config_URLs remote = [url] -> url <> URL r -> invalid_mirror r st.

(** The errors with which [validateCache] reports an invalid mirror. *)
Definition validation_error (err : error) : Prop :=
  (exists cause, err = errors_Wrap cause "could not open registry cache") \/
  (exists cause, err = errors_Wrap cause "could not access registry cache") \/
  err = errors_New "invalid registry cache remotes" \/
  err = errors_New "invalid registry cache origin".

End Registry.

(** The claim that a resolved entry has always passed [Validate] (C1 as
    stated). *)
Definition resolved_entries_are_validated : Prop :=
  forall (L' : Libs) (O' : OS) (r : RegistryCache) (bp : string)
         (st st' : @State O') (b : Buildpack),
    @LocateBuildpack L' O' r bp st = ((b, None), st') -> @Validate L' b = None.


(* ================================================================= *)
(** ** A sample environment *)

(** A small file system with repositories, on which the functions above
    run by computation.  It is one instance of the interfaces among many:
    the theorems below hold for every instance, and are applied to this one
    on concrete inputs. *)

Module Sim.

Local Open Scope string_scope.

Fixpoint lookup {A : Type} (k : string) (l : list (string * A)) : option A :=
  match l with
  | [] => None
  | (k', a) :: l' => if k =? k' then Some a else lookup k l'
  end.

Fixpoint remove {A : Type} (k : string) (l : list (string * A)) : list (string * A) :=
  match l with
  | [] => []
  | (k', a) :: l' => if k =? k' then remove k l' else (k', a) :: remove k l'
  end.

Definition mem (k : string) (l : list string) : bool :=
  existsb (fun k' => k =? k') l.

Record FS : Type := {
  (** directories that hold a repository: the URLs of each of its remotes *)
  dirs : list (string * list (list string));
  (** index files: the tokens a scanner yields and its final error *)
  files : list (string * (list string * option error));
  (** what can be cloned: the remotes a clone of the URL comes with *)
  net : list (string * list (list string));
  (** names the next temporary directories get *)
  tmp : list string;
  (** directories that cannot be removed *)
  locked : list string
}.

Definition with_dirs (w : FS) (d : list (string * list (list string))) : FS :=
  {| dirs := d; files := files w; net := net w; tmp := tmp w; locked := locked w |}.

Definition stat (path : string) (w : FS) : option error * FS :=
  match lookup path (dirs w), lookup path (files w) with
  | None, None => (Some (os_ErrNotExist path), w)
  | _, _ => (None, w)
  end.

Definition tempDir (dir prefix : string) (w : FS) : result string * FS :=
  match tmp w with
  | [] => (Err (external_error "no space left on device"), w)
  | t :: ts =>
      (Ok ("/tmp/" ++ prefix ++ t),
       {| dirs := dirs w; files := files w; net := net w; tmp := ts; locked := locked w |})
  end.

Definition plainClone (path : string) (isBare : bool) (url : string) (w : FS)
  : result string * FS :=
  match lookup url (net w) with
  | None => (Err (external_error "repository not found"), w)
  | Some remotes => (Ok path, with_dirs w ((path, remotes) :: dirs w))
  end.

Definition rename (oldpath newpath : string) (w : FS) : option error * FS :=
  match lookup oldpath (dirs w), lookup newpath (dirs w) with
  | None, _ => (Some (os_ErrNotExist oldpath), w)
  | Some _, Some _ => (Some (external_error "file exists"), w)
  | Some remotes, None => (None, with_dirs w ((newpath, remotes) :: remove oldpath (dirs w)))
  end.

Definition plainOpen (path : string) (w : FS) : result string * FS :=
  match lookup path (dirs w) with
  | None => (Err (external_error "repository does not exist"), w)
  | Some _ => (Ok path, w)
  end.

Definition remotes (repository : string) (w : FS) : result (list Remote) * FS :=
  match lookup repository (dirs w) with
  | None => (Err (external_error "repository does not exist"), w)
  | Some l => (Ok (map (fun urls => {| Config_URLs := urls |}) l), w)
  end.

Definition removeAll (path : string) (w : FS) : option error * FS :=
  if mem path (locked w) then (Some (external_error "permission denied"), w)
  else (None, with_dirs w (remove path (dirs w))).

Definition pull (worktree remoteName : string) (w : FS) : option error * FS :=
  (Some git_NoErrAlreadyUpToDate, w).

Definition open (path : string) (w : FS) : result string * FS :=
  match lookup path (files w) with
  | None => (Err (os_ErrNotExist path), w)
  | Some _ => (Ok path, w)
  end.

Definition scan (file : string) (w : FS) : (list string * option error) * FS :=
  match lookup file (files w) with
  | None => (([], Some (external_error "bad file descriptor")), w)
  | Some content => (content, w)
  end.

#[export] Instance os : OS := {|
  World := FS;
  Repository := string;
  Worktree := string;
  File := string;
  sys_Stat := stat;
  sys_TempDir := tempDir;
  sys_PlainClone := plainClone;
  sys_Worktree := fun repository w => (Ok repository, w);
  Filesystem_Root := fun worktree => worktree;
  sys_Rename := rename;
  sys_PlainOpen := plainOpen;
  sys_Remotes := remotes;
  sys_RemoveAll := removeAll;
  sys_Pull := pull;
  sys_Open := open;
  sys_Scan := scan;
  sys_Close := fun file w => (None, w)
|}.

(** Sample entries of the index of [example/java]. *)
Definition digest : string :=
  "sha256:0123456789abcdef0123456789abcdef0123456789abcdef0123456789abcdef".

Definition java (version : string) (yanked : bool) (address : string) : Buildpack :=
  {| Namespace := "example"; Name := "java"; Version := version;
     Yanked := yanked; Address := address |}.

Definition java_1_0_0 : Buildpack := java "1.0.0" false ("gcr.io/example/java@" ++ digest).
Definition java_2_1_0 : Buildpack := java "2.1.0" true ("gcr.io/example/java@" ++ digest).
Definition java_1_9_9 : Buildpack := java "1.9.9" false ("gcr.io/example/java@" ++ digest).
Definition java_tagged : Buildpack := java "3.0.0" false "gcr.io/example/java:latest".
Definition java_noaddr : Buildpack := java "0.1.0" false "".
Definition java_edge : Buildpack := java "edge" false ("gcr.io/example/java@" ++ digest).
Definition java_nightly : Buildpack := java "nightly" false ("gcr.io/example/java@" ++ digest).

(** The lines the sample decoder knows; every other text is a syntax error. *)
Definition lines : list (string * Buildpack) :=
  [ ("{java 1.0.0}", java_1_0_0); ("{java 2.1.0 yanked}", java_2_1_0);
    ("{java 1.9.9}", java_1_9_9); ("{java 3.0.0 tag}", java_tagged);
    ("{java 0.1.0 no address}", java_noaddr);
    ("{java edge}", java_edge); ("{java nightly}", java_nightly) ].

Definition unmarshal (text : string) : result Buildpack :=
  match lookup text lines with
  | Some bp => Ok bp
  | None => Err (external_error "invalid character looking for beginning of value")
  end.

(** [cut c s]: [s] around the first [c] in it. *)
Fixpoint cut (c : ascii) (s : string) : option (string * string) :=
  match s with
  | "" => None
  | String d s' =>
      if (d =? c)%char then Some ("", s')
      else match cut c s' with
           | Some (a, b) => Some (String d a, b)
           | None => None
           end
  end.

(** Coordinates of the form [namespace/name] or [namespace/name@version]. *)
Definition parseRegistryID (bp : string) : result (string * string * string) :=
  let (id, version) := match cut "@" bp with Some p => p | None => (bp, "") end in
  match cut "/" id with
  | Some (ns, name) => Ok (ns, name, version)
  | None => Err (errors_New ("invalid registry ID: " ++ bp))
  end.

Fixpoint join (elem : list string) : string :=
  match elem with
  | [] => ""
  | e :: elem' =>
      match join elem' with
      | "" => e
      | rest => if e =? "" then rest else e ++ "/" ++ rest
      end
  end.

Fixpoint contains (c : ascii) (s : string) : bool :=
  match s with
  | "" => false
  | String d s' => (d =? c)%char || contains c s'
  end.

(** References are refused when they hold a space; digests are the
    references with an [@]. *)
Definition parseReference (s : string) : option error :=
  if contains " " s then Some (errors_New ("could not parse reference: " ++ s)) else None.

Definition newDigest (s : string) : option error :=
  if contains "@" s then None
  else Some (errors_New "a digest must contain exactly one '@' separator").

#[export] Instance libs : Libs := {|
  filepath_Join := join;
  json_Unmarshal := unmarshal;
  ParseRegistryID := parseRegistryID;
  ggcrname_ParseReference := parseReference;
  ggcrname_NewDigest := newDigest
|}.

Definition registryURL : string := "https://github.com/buildpacks/registry-index".

Definition cache : RegistryCache :=
  {| URL := registryURL; Root := "/home/pack/registry-5fb1" |}.

Definition javaIndex : string := "/home/pack/registry-5fb1/ja/va/example_java".

(** A world where the mirror of [cache] is in place, with [content] as the
    index file of [example/java]. *)
Definition mirrored (content : list string * option error) : FS :=
  {| dirs := [("/home/pack/registry-5fb1", [[registryURL]])];
     files := [(javaIndex, content)];
     net := [(registryURL, [[registryURL]])];
     tmp := ["1"; "2"];
     locked := [] |}.

(** A world where the mirror of [cache] has another origin. *)
Definition foreign : FS :=
  {| dirs := [("/home/pack/registry-5fb1", [["https://example.org/other-index"]])];
     files := [];
     net := [(registryURL, [[registryURL]])];
     tmp := ["1"; "2"];
     locked := [] |}.

(** A world without mirror, where a clone of the registry comes with a
    second remote. *)
Definition forked : FS :=
  {| dirs := [];
     files := [];
     net := [(registryURL, [[registryURL]; ["https://example.org/fork"]])];
     tmp := ["1"; "2"];
     locked := [] |}.

Definition start (w : FS) : State := {| world := w; trace := [] |}.

End Sim.

(** Runs on the sample environment. *)
Module Run.

Import Sim.

Definition root : string := Root cache.

(** The three versions of the example, the second one yanked. *)
Definition three : State :=
  start (mirrored (["{java 1.0.0}"; "{java 2.1.0 yanked}"; "{java 1.9.9}"], None)).

(** Two entries whose versions are no semantic versions. *)
Definition named : State := start (mirrored (["{java edge}"; "{java nightly}"], None)).

(** An entry without address. *)
Definition unaddressed : State := start (mirrored (["{java 0.1.0 no address}"], None)).

(** An index file without lines, and one with a line that is no JSON. *)
Definition blank : State := start (mirrored ([], None)).
Definition broken : State := start (mirrored (["{java 1.0.0}"; "oops"], None)).

End Run.

(* ================================================================= *)
(** ** The constructors of a cache *)

(** [hex.EncodeToString] of the SHA-256 sum of a string
    ([crypto/sha256], [encoding/hex]). *)
Class Digest : Type := {
  sha256_hex : string -> string
}.

Definition defaultRegistryURL : string := "https://github.com/buildpacks/registry-index".

Definition defaultRegistryDir : string := "registry".

(** The zero value [RegistryCache{}]. *)
Definition RegistryCache_zero : RegistryCache := {| URL := ""; Root := "" |}.

Section Locator.

Context {L : Libs} {O : OS} {D : Digest}.

Notation "'let*' x ':=' m 'in' k" := (bind m (fun x => k))
  (at level 10, x pattern, m at level 100, k at level 200).

Definition NewRegistryCache (home registryURL : string)
  : M (RegistryCache * option error) :=
  let* err := os_Stat home in
  match err with
  | Some err => ret (RegistryCache_zero, Some err)
  | None =>
      let cacheDir := defaultRegistryDir ++ "-" ++ sha256_hex registryURL in
      ret ({| URL := registryURL; Root := filepath_Join [home; cacheDir] |}, None)
  end.

Definition NewDefaultRegistryCache (home : string) : M (RegistryCache * option error) :=
  NewRegistryCache home defaultRegistryURL.

End Locator.

(* ================================================================= *)
(** ** The second half of [Initialize] *)

Section Repair.

Context {O : OS}.

Notation "'let*' x ':=' m 'in' k" := (bind m (fun x => k))
  (at level 10, x pattern, m at level 100, k at level 200).

(** [Initialize] from [if err := r.validateCache(); err != nil] on. *)
Definition repair (r : RegistryCache) : M (option error) :=
  let* err := validateCache r in
  match err with
  | Some _ =>
      let* err := os_RemoveAll (Root r) in
      match err with
      | Some err => ret (Some (errors_Wrap err "could not reset registry cache"))
      | None =>
          let* err := createCache r in
          match err with
          | Some err => ret (Some (errors_Wrap err "could not create registry cache"))
          | None => ret None
          end
      end
  | None => ret None
  end.

(** The errors [Initialize] returns. *)
Definition initialize_error (err : option error) : Prop :=
  err = None \/
  (exists cause, err = Some (errors_Wrap cause "could not create registry cache")) \/
  (exists cause, err = Some (errors_Wrap cause "could not reset registry cache")).

End Repair.

(* ================================================================= *)
(** ** Kinds of calls *)

Definition is_clone (c : Call) : bool :=
  match c with Call_PlainClone _ _ _ => true | _ => false end.

Definition is_remove (c : Call) : bool :=
  match c with Call_RemoveAll _ => true | _ => false end.

(** The calls that create, move or delete something on disk. *)
Definition changes_disk (c : Call) : bool :=
  match c with
  | Call_TempDir _ _ | Call_PlainClone _ _ _ | Call_Rename _ _ | Call_RemoveAll _ => true
  | _ => false
  end.

Definition count (p : Call -> bool) (calls : list Call) : nat :=
  List.length (filter p calls).

(** No call of the list changes the disk. *)
Definition quiet (calls : list Call) : Prop :=
  forallb (fun c => negb (changes_disk c)) calls = true.

(* ================================================================= *)
(** ** A sample environment with unreadable directories *)

(** As [Sim], but [os.Stat] of a locked path is refused. *)
Module Denied.

Definition stat (path : string) (w : Sim.FS) : option error * Sim.FS :=
  if Sim.mem path (Sim.locked w) then (Some (external_error "permission denied"), w)
  else Sim.stat path w.

#[export] Instance os : OS := {|
  World := Sim.FS;
  Repository := string;
  Worktree := string;
  File := string;
  sys_Stat := stat;
  sys_TempDir := Sim.tempDir;
  sys_PlainClone := Sim.plainClone;
  sys_Worktree := fun repository w => (Ok repository, w);
  Filesystem_Root := fun worktree => worktree;
  sys_Rename := Sim.rename;
  sys_PlainOpen := Sim.plainOpen;
  sys_Remotes := Sim.remotes;
  sys_RemoveAll := Sim.removeAll;
  sys_Pull := Sim.pull;
  sys_Open := Sim.open;
  sys_Scan := Sim.scan;
  sys_Close := fun file w => (None, w)
|}.

(** The mirror of [Sim.cache] is in place and valid, but its root cannot be
    inspected. *)
Definition sealed : @State os :=
  {| world := {| Sim.dirs := [("/home/pack/registry-5fb1", [[Sim.registryURL]])];
                 Sim.files := [];
                 Sim.net := [(Sim.registryURL, [[Sim.registryURL]])];
                 Sim.tmp := ["1"; "2"];
                 Sim.locked := ["/home/pack/registry-5fb1"] |};
     trace := [] |}.

End Denied.

(** More runs on [Sim]. *)
Module Run2.

Import Sim.

(** A valid mirror without the index file of [example/java]. *)
Definition unindexed : State :=
  start {| dirs := [("/home/pack/registry-5fb1", [[registryURL]])];
           files := [];
           net := [(registryURL, [[registryURL]])];
           tmp := ["1"; "2"];
           locked := [] |}.

(** No mirror and nothing to clone from. *)
Definition offline : State :=
  start {| dirs := []; files := []; net := []; tmp := ["1"; "2"]; locked := [] |}.


(** An index whose scanner fails after one line. *)
Definition truncated : State :=
  start (mirrored (["{java 1.0.0}"], Some (external_error "unexpected EOF"))).

(** The entries of [Run.three] with other names, flags and addresses. *)
Definition renamed : list Buildpack :=
  [ {| Namespace := "other"; Name := "go"; Version := "1.0.0"; Yanked := true;
       Address := "" |};
    {| Namespace := "other"; Name := "go"; Version := "2.1.0"; Yanked := false;
       Address := "x" |};
    {| Namespace := "other"; Name := "go"; Version := "1.9.9"; Yanked := true;
       Address := "y" |} ].

(** A decoder that reads the lines of [Run.three] as the entries above. *)
Definition relabel (text : string) : result Buildpack :=
  match lookup text (combine ["{java 1.0.0}"; "{java 2.1.0 yanked}"; "{java 1.9.9}"]
                             renamed) with
  | Some bp => Ok bp
  | None => Err (external_error "invalid character looking for beginning of value")
  end.

#[export] Instance relabelled : Libs := {|
  filepath_Join := join;
  json_Unmarshal := relabel;
  ParseRegistryID := parseRegistryID;
  ggcrname_ParseReference := parseReference;
  ggcrname_NewDigest := newDigest
|}.

#[export] Instance digest : Digest := {|
  sha256_hex := fun url => if (url =? registryURL)%string then "5fb1" else "0000"
|}.

End Run2.

(* ================================================================= *)
(** ** Facts on comparisons *)

Module CmpFacts.

Import Cmp.

Section Facts.
Context {A : Type} (c : A -> A -> comparison) (G : Good c).

Lemma eq_sym x y : c x y = Eq -> c y x = Eq.
Proof. intros H. rewrite (good_opp c G x y), H. reflexivity. Qed.

Lemma lt_gt x y : c x y = Lt -> c y x = Gt.
Proof. intros H. rewrite (good_opp c G x y), H. reflexivity. Qed.

Lemma gt_lt x y : c x y = Gt -> c y x = Lt.
Proof. intros H. rewrite (good_opp c G x y), H. reflexivity. Qed.

Lemma le_lt_trans x y z : c x y <> Gt -> c y z = Lt -> c x z = Lt.
Proof.
  intros Hxy Hyz.
  destruct (c x z) eqn:Hxz; [ | reflexivity | ].
  - exfalso. apply (good_trans c G z x y); try congruence.
    + rewrite (eq_sym _ _ Hxz). discriminate.
    + apply lt_gt; assumption.
  - exfalso. apply (good_trans c G z x y); try congruence.
    + rewrite (gt_lt _ _ Hxz). discriminate.
    + apply lt_gt; assumption.
Qed.

Lemma lt_le_trans x y z : c x y = Lt -> c y z <> Gt -> c x z = Lt.
Proof.
  intros Hxy Hyz.
  destruct (c x z) eqn:Hxz; [ | reflexivity | ].
  - exfalso. apply (good_trans c G y z x); try congruence.
    + rewrite (eq_sym _ _ Hxz). discriminate.
    + apply lt_gt; assumption.
  - exfalso. apply (good_trans c G y z x); try congruence.
    + rewrite (gt_lt _ _ Hxz). discriminate.
    + apply lt_gt; assumption.
Qed.

Lemma eq_trans x y z : c x y = Eq -> c y z = Eq -> c x z = Eq.
Proof.
  intros Hxy Hyz.
  destruct (c x z) eqn:Hxz; [ reflexivity | | ].
  - exfalso. assert (H : c y z = Lt); [ | congruence ].
    apply le_lt_trans with (y := x); [ | assumption ].
    rewrite (eq_sym _ _ Hxy). discriminate.
  - exfalso. apply (good_trans c G x y z); congruence.
Qed.
End Facts.

Lemma good_lex {A B} (ca : A -> A -> comparison) (cb : B -> B -> comparison) :
  Good ca -> Good cb -> Good (lex ca cb).
Proof.
  intros Ga Gb. split.
  - intros [x1 x2] [y1 y2]. unfold lex; simpl.
    rewrite (good_opp ca Ga x1 y1).
    destruct (ca x1 y1); simpl; auto. apply (good_opp cb Gb).
  - intros [x1 x2] [y1 y2] [z1 z2]. unfold lex; simpl.
    destruct (ca x1 y1) eqn:Hxy; destruct (ca y1 z1) eqn:Hyz; intros H1 H2;
      try congruence.
    + rewrite (eq_trans ca Ga _ _ _ Hxy Hyz). eapply (good_trans cb Gb); eauto.
    + rewrite (le_lt_trans ca Ga x1 y1 z1); congruence.
    + rewrite (lt_le_trans ca Ga x1 y1 z1); congruence.
    + rewrite (lt_le_trans ca Ga x1 y1 z1); congruence.
  Qed.

Lemma strict_lex {A B} (ca : A -> A -> comparison) (cb : B -> B -> comparison) :
  Strict ca -> Strict cb -> Strict (lex ca cb).
Proof.
  intros Sa Sb [x1 x2] [y1 y2]. unfold lex; simpl.
  destruct (ca x1 y1) eqn:H1; try discriminate.
  intros H2. f_equal; auto.
Qed.

Lemma good_seq {A} (c : A -> A -> comparison) : Good c -> Good (seq c).
Proof.
  intros G. split.
  - induction x as [|a x IH]; destruct y as [|b y]; simpl; auto.
    rewrite (good_opp c G a b). destruct (c a b); simpl; auto.
  - induction x as [|a x IH]; destruct y as [|b y]; destruct z as [|d z];
      simpl; try congruence.
    destruct (c a b) eqn:Hab; destruct (c b d) eqn:Hbd; intros H1 H2;
      try congruence.
    + rewrite (eq_trans c G _ _ _ Hab Hbd). eapply IH; eauto.
    + rewrite (le_lt_trans c G a b d); congruence.
    + rewrite (lt_le_trans c G a b d); congruence.
    + rewrite (lt_le_trans c G a b d); congruence.
Qed.

Lemma strict_seq {A} (c : A -> A -> comparison) : Strict c -> Strict (seq c).
Proof.
  intros S x. induction x as [|a x IH]; intros [|b y]; simpl;
    try discriminate; auto.
  destruct (c a b) eqn:H; try discriminate.
  intros H'. f_equal; auto.
Qed.

Lemma good_bot {A} (c : A -> A -> comparison) : Good c -> Good (bot c).
Proof.
  intros G. split.
  - intros [x|] [y|]; simpl; auto; apply (good_opp c G).
  - intros [x|] [y|] [z|]; simpl; try congruence. apply (good_trans c G).
Qed.

Lemma good_top {A} (c : A -> A -> comparison) : Good c -> Good (top c).
Proof.
  intros G. split.
  - intros [x|] [y|]; simpl; auto; apply (good_opp c G).
  - intros [x|] [y|] [z|]; simpl; try congruence. apply (good_trans c G).
Qed.

Lemma strict_top {A} (c : A -> A -> comparison) : Strict c -> Strict (top c).
Proof.
  intros S [x|] [y|]; simpl; try discriminate; auto.
  intros H. f_equal; auto.
Qed.

Lemma good_on {A B} (f : A -> B) (c : B -> B -> comparison) : Good c -> Good (on f c).
Proof.
  intros G. split; unfold on.
  - intros; apply (good_opp c G).
  - intros x y z; apply (good_trans c G).
Qed.

Lemma good_nat : Good Nat.compare.
Proof.
  split.
  - intros x y. apply Nat.compare_antisym.
  - intros x y z. rewrite !Nat.compare_gt_iff. lia.
Qed.

Lemma strict_nat : Strict Nat.compare.
Proof. intros x y. apply Nat.compare_eq. Qed.

Lemma good_bool : Good Bool.compare.
Proof.
  split.
  - intros [] []; reflexivity.
  - intros [] [] []; simpl; congruence.
Qed.

Lemma good_ascii : Good Ascii.compare.
Proof.
  split.
  - intros x y. apply Ascii.compare_antisym.
  - intros x y z. unfold Ascii.compare. rewrite !N.compare_gt_iff. lia.
Qed.

Lemma string_compare_trans x : forall y z,
  String.compare x y <> Gt -> String.compare y z <> Gt -> String.compare x z <> Gt.
Proof.
  induction x as [|a x IH]; intros [|b y] [|d z]; simpl; try congruence.
  destruct (Ascii.compare a b) eqn:Hab; destruct (Ascii.compare b d) eqn:Hbd;
    intros H1 H2; try congruence.
  - rewrite (eq_trans _ good_ascii _ _ _ Hab Hbd). eapply IH; eauto.
  - rewrite (le_lt_trans _ good_ascii a b d); congruence.
  - rewrite (lt_le_trans _ good_ascii a b d); congruence.
  - rewrite (lt_le_trans _ good_ascii a b d); congruence.
Qed.

Lemma good_string : Good String.compare.
Proof.
  split.
  - intros x y. apply String.compare_antisym.
  - intros x y z. apply string_compare_trans.
Qed.

Lemma strict_string : Strict String.compare.
Proof. intros x y. apply String.compare_eq_iff. Qed.

Lemma string_compare_refl x : String.compare x x = Eq.
Proof.
  induction x as [|a x IH]; simpl; auto.
  unfold Ascii.compare. rewrite N.compare_refl. assumption.
Qed.

End CmpFacts.

(* ================================================================= *)
(** ** [semver.Compare] is a weak order *)

(** Each comparison of the version library is the comparison of a key in a
    lexicographic product, so [Compare] is antisymmetric and transitive:
    unparsable versions form the lowest class, the others are ordered by
    major, minor, patch and prerelease. *)

Module semver_order.

Import semver semver_keys.
Local Open Scope string_scope.

Lemma good_intc : Cmp.Good intc.
Proof. apply CmpFacts.good_on, CmpFacts.good_lex; [apply CmpFacts.good_nat | apply CmpFacts.good_string]. Qed.

Lemma good_identc : Cmp.Good identc.
Proof.
  apply CmpFacts.good_on, CmpFacts.good_lex; [apply CmpFacts.good_bool | ].
  apply CmpFacts.good_lex; [apply CmpFacts.good_nat | apply CmpFacts.good_string].
Qed.

Lemma good_prec : Cmp.Good prec.
Proof. apply CmpFacts.good_on, CmpFacts.good_top, CmpFacts.good_seq, good_identc. Qed.

Lemma good_verc : Cmp.Good verc.
Proof.
  apply CmpFacts.good_on, CmpFacts.good_bot.
  repeat (apply CmpFacts.good_lex; [apply good_intc | ]). apply good_prec.
Qed.

Lemma strict_identc : Cmp.Strict identc.
Proof.
  intros x y. unfold identc, Cmp.on, Cmp.lex; simpl.
  destruct (Bool.compare _ _); try discriminate.
  destruct (Nat.compare _ _); try discriminate.
  apply String.compare_eq_iff.
Qed.

Lemma identc_refl x : identc x x = Eq.
Proof.
  unfold identc, Cmp.on, Cmp.lex; simpl.
  destruct (isNum x); simpl; rewrite ?Nat.compare_refl; apply CmpFacts.string_compare_refl.
Qed.

Lemma ltb_compare x y : (x <? y) = match String.compare x y with Lt => true | _ => false end.
Proof. reflexivity. Qed.

Lemma compareInt_key x y : compareInt x y = Cmp.toZ (intc x y).
Proof.
  unfold compareInt, intc, Cmp.on, Cmp.lex; simpl.
  destruct (String.eqb_spec x y) as [->|Hne].
  - rewrite Nat.compare_refl, CmpFacts.string_compare_refl. reflexivity.
  - destruct (Nat.ltb_spec (String.length x) (String.length y)) as [Hlt|Hge].
    + apply Nat.compare_lt_iff in Hlt. rewrite Hlt. reflexivity.
    + destruct (Nat.ltb_spec (String.length y) (String.length x)) as [Hgt|Hle].
      * apply Nat.compare_gt_iff in Hgt. rewrite Hgt. reflexivity.
      * assert (Heq : String.length x = String.length y) by lia.
        apply Nat.compare_eq_iff in Heq. rewrite Heq, ltb_compare.
        destruct (String.compare x y) eqn:Hc; try reflexivity.
        apply String.compare_eq_iff in Hc. contradiction.
Qed.

Lemma compareIdent_key dx dy :
  dx <> dy -> compareIdent dx dy = Cmp.toZ (identc dx dy).
Proof.
  intros Hne. unfold compareIdent, identc, Cmp.on, Cmp.lex; simpl.
  assert (Hs : (if (dx <? dy)%string then -1 else 1) = Cmp.toZ (String.compare dx dy)).
  { rewrite ltb_compare. destruct (String.compare dx dy) eqn:Hc; try reflexivity.
    apply String.compare_eq_iff in Hc. contradiction. }
  destruct (isNum dx), (isNum dy); simpl; try reflexivity.
  - destruct (Nat.ltb_spec (String.length dx) (String.length dy)) as [Hlt|Hge].
    + apply Nat.compare_lt_iff in Hlt. rewrite Hlt. reflexivity.
    + destruct (Nat.ltb_spec (String.length dy) (String.length dx)) as [Hgt|Hle].
      * apply Nat.compare_gt_iff in Hgt. rewrite Hgt. reflexivity.
      * assert (Heq : String.length dx = String.length dy) by lia.
        apply Nat.compare_eq_iff in Heq. rewrite Heq. exact Hs.
  - exact Hs.
Qed.

Lemma compareIdents_key lx : forall ly,
  lx <> ly -> compareIdents lx ly = Cmp.toZ (Cmp.seq identc lx ly).
Proof.
  induction lx as [|dx lx IH]; intros [|dy ly] Hne; simpl; try reflexivity.
  - contradiction.
  - destruct (String.eqb_spec dx dy) as [->|Hd].
    + rewrite identc_refl. apply IH. congruence.
    + rewrite (compareIdent_key _ _ Hd).
      destruct (identc dx dy) eqn:Hc; try reflexivity.
      apply strict_identc in Hc. contradiction.
Qed.

Lemma joinDots_splitDots x : joinDots (splitDots x) = x.
Proof.
  induction x as [|c x IH]; [reflexivity|].
  simpl. destruct (Ascii.eqb_spec c ".") as [->|Hc].
  - simpl. rewrite IH. destruct (splitDots x) eqn:Hs; [ | reflexivity].
    destruct x as [|d x]; simpl in Hs; [discriminate|].
    destruct (d =? ".")%char; [discriminate|]. destruct (splitDots x); discriminate.
  - destruct (splitDots x) as [|dx l] eqn:Hs.
    + simpl in IH. subst x. reflexivity.
    + rewrite <- IH. simpl. destruct l; reflexivity.
Qed.

Lemma splitDots_inj x y : splitDots x = splitDots y -> x = y.
Proof.
  intros H. rewrite <- (joinDots_splitDots x), <- (joinDots_splitDots y), H.
  reflexivity.
Qed.

Lemma comparePrerelease_key x y :
  hyphened x -> hyphened y -> comparePrerelease x y = Cmp.toZ (prec x y).
Proof.
  intros Hx Hy. unfold comparePrerelease, prec, Cmp.on.
  destruct (String.eqb_spec x y) as [->|Hne].
  - destruct y; simpl; [reflexivity|].
    generalize (splitDots y). induction l as [|d l IH]; simpl; [reflexivity|].
    rewrite identc_refl. exact IH.
  - destruct Hx as [->|[x' ->]]; destruct Hy as [->|[y' ->]]; simpl; try reflexivity.
    + contradiction.
    + apply compareIdents_key. intros H. apply splitDots_inj in H. congruence.
Qed.

Lemma parsePrerelease_hyphened v t rest :
  parsePrerelease v = Some (t, rest) -> hyphened t.
Proof.
  destruct v as [|c v]; simpl; [discriminate|].
  destruct (Ascii.eqb_spec c "-") as [->|Hc]; simpl; [|discriminate].
  destruct (scanPrerelease "" v) as [[t' r']|]; [|discriminate].
  intros H; injection H as <- _. right; eauto.
Qed.

Lemma parseTail_hyphened ma mi pa v p :
  parseTail ma mi pa v = Some p -> hyphened (prerelease p).
Proof.
  unfold parseTail.
  destruct (startsWith "-" v).
  - destruct (parsePrerelease v) as [[pre v']|] eqn:Hp; [|discriminate].
    apply parsePrerelease_hyphened in Hp.
    destruct (if startsWith "+" v' then parseBuild v' else Some ("", v')) as [[bu v'']|];
      [|discriminate].
    destruct (negb (v'' =? "")); [discriminate|].
    intros H; injection H as <-. exact Hp.
  - destruct (if startsWith "+" v then parseBuild v else Some ("", v)) as [[bu v'']|];
      [|discriminate].
    destruct (negb (v'' =? "")); [discriminate|].
    intros H; injection H as <-. left; reflexivity.
Qed.

Lemma parse_hyphened v p : parse v = Some p -> hyphened (prerelease p).
Proof.
  unfold parse.
  destruct v as [|c v]; [discriminate|].
  destruct (negb (c =? "v")%char); [discriminate|].
  destruct (parseInt v) as [[ma v1]|]; [|discriminate].
  destruct v1 as [|c1 v1]; [intros H; injection H as <-; left; reflexivity|].
  destruct (negb (c1 =? ".")%char); [discriminate|].
  destruct (parseInt v1) as [[mi v2]|]; [|discriminate].
  destruct v2 as [|c2 v2]; [intros H; injection H as <-; left; reflexivity|].
  destruct (negb (c2 =? ".")%char); [discriminate|].
  destruct (parseInt v2) as [[pa v3]|]; [|discriminate].
  apply parseTail_hyphened.
Qed.

Lemma toZ_zero r : (Cmp.toZ r =? 0)%Z = match r with Eq => true | _ => false end.
Proof. destruct r; reflexivity. Qed.

Lemma Compare_key v w : Compare v w = Cmp.toZ (verc v w).
Proof.
  unfold Compare, verc, verkey, Cmp.on.
  destruct (parse v) as [pv|] eqn:Hv; destruct (parse w) as [pw|] eqn:Hw;
    simpl; try reflexivity.
  apply parse_hyphened in Hv. apply parse_hyphened in Hw.
  unfold Cmp.lex; simpl.
  rewrite !compareInt_key, !toZ_zero, (comparePrerelease_key _ _ Hv Hw).
  destruct (intc (major pv) (major pw)); simpl; try reflexivity.
  destruct (intc (minor pv) (minor pw)); simpl; try reflexivity.
  destruct (intc (patch pv) (patch pw)); simpl; reflexivity.
Qed.

Lemma toZ_opp r : Cmp.toZ (CompOpp r) = (- Cmp.toZ r)%Z.
Proof. destruct r; reflexivity. Qed.

Lemma toZ_le r : (Cmp.toZ r <= 0)%Z <-> r <> Gt.
Proof. destruct r; simpl; split; (congruence || lia). Qed.

Lemma Compare_opp v w : Compare w v = (- Compare v w)%Z.
Proof. rewrite !Compare_key, (Cmp.good_opp _ good_verc v w). apply toZ_opp. Qed.

Lemma Compare_trans u v w :
  (Compare u v <= 0 -> Compare v w <= 0 -> Compare u w <= 0)%Z.
Proof. rewrite !Compare_key, !toZ_le. apply (Cmp.good_trans _ good_verc). Qed.

Lemma Compare_invalid v w :
  IsValid v = false -> IsValid w = false -> Compare v w = 0%Z.
Proof.
  unfold IsValid, Compare.
  destruct (parse v); [discriminate|]. destruct (parse w); [discriminate|]. reflexivity.
Qed.

End semver_order.

(* ================================================================= *)
(** ** The first maximum of a list *)

(** The loop of [LocateBuildpack] over [entry.Buildpacks[1:]] keeps a
    candidate and replaces it by an element that compares strictly greater.
    For a comparison that is antisymmetric and transitive the result is the
    first of the greatest elements. *)

Section FirstMax.

Variable A : Type.
Variable c : A -> A -> Z.
Hypothesis c_opp : forall x y, c y x = - c x y.
Hypothesis c_trans : forall x y z, c x y <= 0 -> c y z <= 0 -> c x z <= 0.

Lemma c_refl x : c x x = 0.
Proof. pose proof (c_opp x x). lia. Qed.

Lemma c_le_lt x y z : c x y <= 0 -> c y z < 0 -> c x z < 0.
Proof.
  intros Hxy Hyz.
  destruct (Z_lt_le_dec (c x z) 0) as [Hlt|Hge]; [assumption|exfalso].
  assert (Hzx : c z x <= 0) by (rewrite (c_opp x z); lia).
  pose proof (c_trans z x y Hzx Hxy) as Hzy.
  rewrite (c_opp y z) in Hzy. lia.
Qed.

Lemma fold_keep_snoc l x h0 :
  fold_left (keep c) (l ++ [x])%list h0 = keep c (fold_left (keep c) l h0) x.
Proof. rewrite fold_left_app. reflexivity. Qed.

Lemma fold_keep_first_max l : forall h0,
  exists i,
    nth_error (h0 :: l) i = Some (fold_left (keep c) l h0) /\
    (forall b, In b (h0 :: l) -> c b (fold_left (keep c) l h0) <= 0) /\
    (forall j b, (j < i)%nat -> nth_error (h0 :: l) j = Some b ->
                 c b (fold_left (keep c) l h0) < 0).
Proof.
  induction l as [|x l IH] using rev_ind; intros h0.
  - exists 0%nat. simpl. repeat split.
    + intros b [<-|[]]. rewrite c_refl. lia.
    + intros j b Hj. lia.
  - destruct (IH h0) as (i & Hi & Hmax & Hfirst).
    rewrite fold_keep_snoc. set (h := fold_left (keep c) l h0) in *.
    assert (Hlen : (i < List.length (h0 :: l))%nat).
    { apply nth_error_Some. rewrite Hi. discriminate. }
    unfold keep. destruct (Z.ltb_spec 0 (c x h)) as [Hgt|Hle].
    + assert (Hhx : c h x < 0) by (rewrite (c_opp x h); lia).
      exists (List.length (h0 :: l)). repeat split.
      * change (h0 :: (l ++ [x])%list) with ((h0 :: l) ++ [x])%list.
        rewrite nth_error_app2, Nat.sub_diag by lia. reflexivity.
      * intros b Hb.
        change (h0 :: (l ++ [x])%list) with ((h0 :: l) ++ [x])%list in Hb.
        apply in_app_or in Hb. destruct Hb as [Hb|[<-|[]]].
        -- pose proof (c_le_lt b h x (Hmax b Hb) Hhx). lia.
        -- rewrite c_refl. lia.
      * intros j b Hj Hb.
        change (h0 :: (l ++ [x])%list) with ((h0 :: l) ++ [x])%list in Hb.
        rewrite nth_error_app1 in Hb by assumption.
        apply nth_error_In in Hb. exact (c_le_lt b h x (Hmax b Hb) Hhx).
    + exists i. repeat split.
      * change (h0 :: (l ++ [x])%list) with ((h0 :: l) ++ [x])%list.
        rewrite nth_error_app1 by assumption. exact Hi.
      * intros b Hb.
        change (h0 :: (l ++ [x])%list) with ((h0 :: l) ++ [x])%list in Hb.
        apply in_app_or in Hb. destruct Hb as [Hb|[<-|[]]]; auto.
      * intros j b Hj Hb.
        change (h0 :: (l ++ [x])%list) with ((h0 :: l) ++ [x])%list in Hb.
        rewrite nth_error_app1 in Hb by lia. eauto.
Qed.

Lemma fold_keep_all_equal l : forall h0,
  (forall x y, In x (h0 :: l) -> In y (h0 :: l) -> c x y <= 0) ->
  fold_left (keep c) l h0 = h0.
Proof.
  induction l as [|x l IH]; intros h0 H; [reflexivity|].
  simpl. unfold keep at 2.
  destruct (Z.ltb_spec 0 (c x h0)) as [Hgt|Hle].
  - specialize (H x h0 (or_intror (or_introl eq_refl)) (or_introl eq_refl)). lia.
  - apply IH. intros a b Ha Hb. apply H; simpl in *; tauto.
Qed.

End FirstMax.

(* ================================================================= *)
(** ** Facts on the registry functions *)

Section RegistryFacts.

Context {L : Libs} {O : OS}.

Lemma higher_keep h b : higher h b = keep compareVersions h b.
Proof. reflexivity. Qed.

Lemma fold_higher_keep l h0 :
  fold_left higher l h0 = fold_left (keep compareVersions) l h0.
Proof. reflexivity. Qed.

Lemma compareVersions_opp x y : compareVersions y x = - compareVersions x y.
Proof. apply semver_order.Compare_opp. Qed.

Lemma compareVersions_trans x y z :
  compareVersions x y <= 0 -> compareVersions y z <= 0 -> compareVersions x z <= 0.
Proof. apply semver_order.Compare_trans. Qed.

Lemma LocateBuildpack_selected r bp ns name version st st1 st2 entries :
  Refresh r st = (None, st1) ->
  ParseRegistryID bp = Ok (ns, name, version) ->
  readEntry r ns name version st1 = (({| Buildpacks := entries |}, None), st2) ->
  LocateBuildpack r bp st = (selected bp version entries, st2).
Proof.
  intros HR HP HE. unfold LocateBuildpack, bind. rewrite HR, HP, HE. simpl.
  destruct entries as [|first others]; [reflexivity|].
  simpl List.length. simpl (0 <? _)%nat. cbv iota.
  unfold selected. destruct (version =? "")%string.
  - destruct others as [|second others]; reflexivity.
  - destruct (find _ (first :: others)); reflexivity.
Qed.

Lemma LocateBuildpack_read_error r bp ns name version st st1 st2 entry err :
  Refresh r st = (None, st1) ->
  ParseRegistryID bp = Ok (ns, name, version) ->
  readEntry r ns name version st1 = ((entry, Some err), st2) ->
  LocateBuildpack r bp st =
    ((Buildpack_zero, Some (errors_Wrap err "reading entry")), st2).
Proof.
  intros HR HP HE. unfold LocateBuildpack, bind. rewrite HR, HP, HE. reflexivity.
Qed.

Lemma find_first {A : Type} (f : A -> bool) (l : list A) x :
  find f l = Some x ->
  exists i, nth_error l i = Some x /\ f x = true /\
            forall j y, (j < i)%nat -> nth_error l j = Some y -> f y = false.
Proof.
  induction l as [|a l IH]; simpl; [discriminate|].
  destruct (f a) eqn:Hfa.
  - intros H; injection H as <-. exists 0%nat. repeat split; auto.
    intros j y Hj. lia.
  - intros H. destruct (IH H) as (i & Hi & Hx & Hbefore).
    exists (S i). repeat split; auto.
    intros [|j] y Hj; simpl.
    + intros Hy; injection Hy as <-. assumption.
    + apply Hbefore. lia.
Qed.

Lemma call_trace_eq {A : Type} (c : Call) (op : World -> A * World) st a st' :
  call c op st = (a, st') -> trace st' = (trace st ++ [c])%list.
Proof.
  unfold call. destruct (op (world st)) as [a' w]. intros H; injection H as <- <-.
  reflexivity.
Qed.

(** *** Reading the lines of an index file *)

Lemma scanLines_bad ns name lines : forall entry text e,
  In text lines -> json_Unmarshal text = Err e ->
  exists err, scanLines ns name entry lines = Err err.
Proof.
  induction lines as [|t lines IH]; intros entry text e Hin He; [destruct Hin|].
  simpl. destruct (json_Unmarshal t) as [bp|err] eqn:Ht; [|eauto].
  destruct Hin as [->|Hin]; [congruence|]. eapply IH; eauto.
Qed.

Lemma scanLines_ok ns name lines : forall entry entry',
  scanLines ns name entry lines = Ok entry' ->
  exists bs, Buildpacks entry' = (Buildpacks entry ++ bs)%list /\
             Forall2 (fun text b => json_Unmarshal text = Ok b) lines bs.
Proof.
  induction lines as [|t lines IH]; intros entry entry'; simpl.
  - intros H; injection H as <-. exists []. rewrite app_nil_r. auto.
  - destruct (json_Unmarshal t) as [bp|err] eqn:Ht; [|discriminate].
    intros H. destruct (IH _ _ H) as (bs & Hbs & Hall). simpl in Hbs.
    exists (bp :: bs). rewrite Hbs, <- app_assoc. auto.
Qed.

Lemma readEntry_scanned r ns name version st sa file sb lines scanErr sc x st2 :
  os_Stat (indexPath r ns name) st = (None, sa) ->
  os_Open (indexPath r ns name) sa = (Ok file, sb) ->
  bufio_Scan file sb = ((lines, scanErr), sc) ->
  file_Close file sc = (x, st2) ->
  readEntry r ns name version st =
    (match scanLines ns name Entry_zero lines with
     | Err err => (Entry_zero, Some err)
     | Ok entry =>
         match scanErr with
         | Some err =>
             (entry, Some (errors_Wrap err
                             ("could not read index for buildpack: " ++ ns ++ "/" ++ name)))
         | None => (entry, None)
         end
     end, st2).
Proof.
  unfold indexPath. intros HS HO HC HX. unfold readEntry, bind.
  rewrite HS, HO, HC, HX. simpl.
  destruct (scanLines ns name Entry_zero lines); [destruct scanErr|]; reflexivity.
Qed.

Lemma readEntry_ok_inv r ns name version st entry st2 :
  readEntry r ns name version st = ((entry, None), st2) ->
  exists lines, scanLines ns name Entry_zero lines = Ok entry.
Proof.
  unfold readEntry, bind.
  destruct (os_Stat _ st) as [[err|] sa]; [discriminate|].
  destruct (os_Open _ sa) as [[file|err] sb]; [|discriminate].
  destruct (bufio_Scan file sb) as [[lines scanErr] sc].
  destruct (file_Close file sc) as [x sd]. simpl.
  destruct (scanLines ns name Entry_zero lines) as [entry'|err] eqn:Hs; [|discriminate].
  destruct scanErr; [discriminate|].
  intros H; injection H as <- <-. eauto.
Qed.

Lemma readEntry_decoded r ns name version st entry st2 b :
  readEntry r ns name version st = ((entry, None), st2) ->
  In b (Buildpacks entry) ->
  exists text, json_Unmarshal text = Ok b.
Proof.
  intros H Hb. apply readEntry_ok_inv in H. destruct H as (lines & Hs).
  apply scanLines_ok in Hs. destruct Hs as (bs & Hbs & Hall).
  simpl in Hbs. rewrite Hbs in Hb. clear Hbs.
  induction Hall as [|text b' lines bs Htb Hall IH]; [destruct Hb|].
  destruct Hb as [<-|Hb]; eauto.
Qed.

(** [readEntry] begins with [os.Stat] of the index file, in the directory
    [indexDir name] under the root. *)
Lemma readEntry_trace r ns name version st :
  exists calls,
    trace (snd (readEntry r ns name version st)) =
      (trace st ++ Call_Stat (indexPath r ns name) :: calls)%list.
Proof.
  unfold readEntry, bind, indexPath.
  destruct (os_Stat _ st) as [[err|] sa] eqn:HS; apply call_trace_eq in HS.
  - simpl. rewrite HS. eauto.
  - destruct (os_Open _ sa) as [[file|err] sb] eqn:HO; apply call_trace_eq in HO.
    + destruct (bufio_Scan file sb) as [scanned sc] eqn:HC; apply call_trace_eq in HC.
      destruct (file_Close file sc) as [x sd] eqn:HX; apply call_trace_eq in HX.
      set (index := filepath_Join [Root r; indexDir name; ns ++ "_" ++ name]) in *.
      assert (Ht : trace sd = (trace st ++ Call_Stat index
                                 :: [Call_Open index; Call_Scan; Call_Close])%list).
      { rewrite HX, HC, HO, HS, <- !app_assoc. reflexivity. }
      destruct (scanLines ns name Entry_zero (fst scanned)); [destruct (snd scanned)|];
        simpl; rewrite Ht; eauto.
    + simpl. rewrite HO, HS, <- app_assoc. simpl. eauto.
Qed.

(** *** The calls of the mirror functions *)

Lemma createCache_trace r st err st' :
  createCache r st = (err, st') ->
  exists calls, trace st' = (trace st ++ calls)%list /\ Forall creation_call calls.
Proof.
  unfold createCache, bind.
  destruct (ioutil_TempDir "" "registry" st) as [[root|e] s1] eqn:H1;
    apply call_trace_eq in H1.
  - destruct (git_PlainClone root false (URL r) s1) as [[repo|e] s2] eqn:H2;
      apply call_trace_eq in H2.
    + destruct (repository_Worktree repo s2) as [[w|e] s3] eqn:H3;
        apply call_trace_eq in H3.
      * intros H4. apply call_trace_eq in H4.
        rewrite H4, H3, H2, H1, <- !app_assoc. simpl.
        eexists; split; [reflexivity|]. repeat constructor.
      * intros H; injection H as <- <-.
        rewrite H3, H2, H1, <- !app_assoc. simpl.
        eexists; split; [reflexivity|]. repeat constructor.
    + intros H; injection H as <- <-.
      rewrite H2, H1, <- !app_assoc. simpl.
      eexists; split; [reflexivity|]. repeat constructor.
  - intros H; injection H as <- <-. rewrite H1.
    eexists; split; [reflexivity|]. repeat constructor.
Qed.

(** [validateCache] begins by opening the repository at the root. *)
Lemma validateCache_trace r st err st' :
  validateCache r st = (err, st') ->
  exists calls, trace st' = (trace st ++ Call_PlainOpen (Root r) :: calls)%list.
Proof.
  unfold validateCache, bind.
  destruct (git_PlainOpen (Root r) st) as [[repo|e] s1] eqn:H1; apply call_trace_eq in H1.
  - destruct (repository_Remotes repo s1) as [[remotes|e] s2] eqn:H2;
      apply call_trace_eq in H2.
    + assert (Ht : trace s2 = (trace st ++ [Call_PlainOpen (Root r); Call_Remotes])%list).
      { rewrite H2, H1, <- app_assoc. reflexivity. }
      destruct (_ || _); [|destruct (negb _)]; intros H; injection H as <- <-; eauto.
    + intros H; injection H as <- <-. rewrite H2, H1, <- app_assoc. simpl. eauto.
  - intros H; injection H as <- <-. rewrite H1. eauto.
Qed.

Lemma validateCache_remotes r st repository s1 remotes s2 :
  git_PlainOpen (Root r) st = (Ok repository, s1) ->
  repository_Remotes repository s1 = (Ok remotes, s2) ->
  (valid_remotes r remotes /\ validateCache r st = (None, s2)) \/
  (~ valid_remotes r remotes /\
   (validateCache r st = (Some (errors_New "invalid registry cache remotes"), s2) \/
    validateCache r st = (Some (errors_New "invalid registry cache origin"), s2))).
Proof.
  intros H1 H2. unfold validateCache, bind. rewrite H1, H2.
  destruct remotes as [|[urls] [|remote' remotes]]; simpl.
  - right. split; [intros (x & Hx & _); discriminate | left; reflexivity].
  - destruct urls as [|u [|u' urls]]; simpl.
    + right. split; [intros (x & Hx & Hu); injection Hx as <-; discriminate
                    | left; reflexivity].
    + destruct (String.eqb_spec u (URL r)) as [->|Hne]; simpl.
      * left. split; [eexists; split; reflexivity | reflexivity].
      * right. split; [|right; reflexivity].
        intros (x & Hx & Hu); injection Hx as <-. simpl in Hu. congruence.
    + right. split; [intros (x & Hx & Hu); injection Hx as <-; discriminate
                    | left; reflexivity].
  - right. split; [intros (x & Hx & _); discriminate | left; reflexivity].
Qed.

End RegistryFacts.

(* ================================================================= *)
(** ** The mirror: reset and validation *)

Section Mirror.

Context {O : OS}.

Ltac verr_known :=
  do 2 eexists; split; [reflexivity | unfold validation_error; eauto 6].

Lemma validateCache_invalid r st :
  invalid_mirror r st ->
  exists verr st2, validateCache r st = (Some verr, st2) /\ validation_error verr.
Proof.
  intros [err s1 H1 | repo s1 err s2 H1 H2 | repo s1 remotes s2 H1 H2 Hn
         | repo s1 remote s2 H1 H2 Hn | repo s1 remote s2 url H1 H2 Hu Hn].
  - unfold validateCache, bind. rewrite H1. verr_known.
  - unfold validateCache, bind. rewrite H1, H2. verr_known.
  - destruct (validateCache_remotes r st _ _ _ _ H1 H2) as [[(x & -> & _) _]|[_ [H|H]]];
      [simpl in Hn; lia | rewrite H; verr_known | rewrite H; verr_known].
  - destruct (validateCache_remotes r st _ _ _ _ H1 H2) as [[(x & Hx & Hv) _]|[_ [H|H]]];
      [ | rewrite H; verr_known | rewrite H; verr_known].
    injection Hx as <-. rewrite Hv in Hn. simpl in Hn. lia.
  - destruct (validateCache_remotes r st _ _ _ _ H1 H2) as [[(x & Hx & Hv) _]|[_ [H|H]]];
      [ | rewrite H; verr_known | rewrite H; verr_known].
    injection Hx as <-. congruence.
Qed.

Lemma reset_is_not_validation cause verr :
  validation_error verr ->
  errors_Wrap cause "could not reset registry cache" <> verr /\
  errors_Wrap cause "could not create registry cache" <> verr.
Proof.
  intros [(c & ->)|[(c & ->)|[->| ->]]]; split; intros H; discriminate H.
Qed.

(** C5.  When the mirror exists ([os.Stat] of the root succeeds) but fails
    validation (it does not open, it has no remote or several, its remote
    has no URL or several, or the URL is not the configured one),
    [Initialize] does not return the validation error: it calls
    [os.RemoveAll] on the root and then [createCache].  A failure of the
    removal is returned wrapped as "could not reset registry cache", a
    failure of the creation wrapped as "could not create registry cache",
    and otherwise [Initialize] returns [nil]. *)
Theorem Initialize_resets_invalid_mirror r st st1 :
  os_Stat (Root r) st = (None, st1) ->
  invalid_mirror r st1 ->
  exists verr st2,
    validateCache r st1 = (Some verr, st2) /\
    fst (Initialize r st) <> Some verr /\
    let (removed, st3) := os_RemoveAll (Root r) st2 in
    trace st3 = (trace st2 ++ [Call_RemoveAll (Root r)])%list /\
    match removed with
    | Some err =>
        Initialize r st = (Some (errors_Wrap err "could not reset registry cache"), st3)
    | None =>
        let (created, st4) := createCache r st3 in
        match created with
        | Some err =>
            Initialize r st =
              (Some (errors_Wrap err "could not create registry cache"), st4)
        | None => Initialize r st = (None, st4)
        end
    end.
Proof.
  intros HS Hinv.
  destruct (validateCache_invalid r st1 Hinv) as (verr & st2 & HV & Hverr).
  exists verr, st2. split; [exact HV|].
  assert (HI : Initialize r st =
               (let (removed, st3) := os_RemoveAll (Root r) st2 in
                match removed with
                | Some err => (Some (errors_Wrap err "could not reset registry cache"), st3)
                | None =>
                    let (created, st4) := createCache r st3 in
                    match created with
                    | Some err =>
                        (Some (errors_Wrap err "could not create registry cache"), st4)
                    | None => (None, st4)
                    end
                end)).
  { unfold Initialize, bind. rewrite HS, HV.
    destruct (os_RemoveAll (Root r) st2) as [[e|] st3]; [reflexivity|].
    destruct (createCache r st3) as [[e|] st4]; reflexivity. }
  rewrite HI.
  destruct (os_RemoveAll (Root r) st2) as [[e|] st3] eqn:HR.
  - repeat split.
    + simpl. intros H; injection H as H.
      apply (proj1 (reset_is_not_validation e verr Hverr)); assumption.
    + eapply call_trace_eq; exact HR.
  - apply call_trace_eq in HR.
    destruct (createCache r st3) as [[e|] st4]; repeat split; try assumption.
    + simpl. intros H; injection H as H.
      apply (proj2 (reset_is_not_validation e verr Hverr)); assumption.
    + simpl. discriminate.
Qed.

(** C10.  When the root is absent ([os.Stat] fails with a not-exist error)
    and [createCache] succeeds, [Initialize] still runs [validateCache] on
    the fresh mirror.  If that validation fails, the root is removed and
    [createCache] runs once more; its result is the result of [Initialize],
    and after it only the calls of the creation are made: no second
    validation. *)
Theorem Initialize_validates_fresh_mirror r st err st1 st2 :
  os_Stat (Root r) st = (Some err, st1) ->
  os_IsNotExist err = true ->
  createCache r st1 = (None, st2) ->
  let (invalid, st3) := validateCache r st2 in
  (exists calls, trace st3 = (trace st2 ++ Call_PlainOpen (Root r) :: calls)%list) /\
  match invalid with
  | None => Initialize r st = (None, st3)
  | Some _ =>
      let (removed, st4) := os_RemoveAll (Root r) st3 in
      match removed with
      | Some err =>
          Initialize r st = (Some (errors_Wrap err "could not reset registry cache"), st4)
      | None =>
          let (created, st5) := createCache r st4 in
          Initialize r st =
            (match created with
             | Some err => Some (errors_Wrap err "could not create registry cache")
             | None => None
             end, st5) /\
          exists calls, trace st5 = (trace st4 ++ calls)%list /\ Forall creation_call calls
      end
  end.
Proof.
  intros HS HN HC.
  destruct (validateCache r st2) as [invalid st3] eqn:HV.
  split; [eapply validateCache_trace; exact HV|].
  unfold Initialize, bind. rewrite HS, HN, HC, HV.
  destruct invalid as [verr|]; [|reflexivity].
  destruct (os_RemoveAll (Root r) st3) as [[e|] st4]; [reflexivity|].
  destruct (createCache r st4) as [created st5] eqn:HC2.
  split; [destruct created; reflexivity|].
  eapply createCache_trace; exact HC2.
Qed.

End Mirror.

(* ================================================================= *)
(** ** The index: shard directory, validation, resolution *)

Section Resolution.

Context {L : Libs} {O : OS}.

(** C4.  The directory of the index file of [name] is [name] itself when
    [len(name) < 3], [filepath.Join(name[0:2], name[2:3])] when
    [len(name) == 3] and [filepath.Join(name[0:2], name[2:4])] when
    [len(name) >= 4]; it depends on the length of the name and on its first
    four bytes only, and [readEntry] looks for the index file in it; the
    names of lengths 1 to 5 are instances. *)
Theorem indexDir_shard :
  (forall name, (String.length name < 3)%nat -> indexDir name = name) /\
  (forall name, String.length name = 3%nat ->
     indexDir name = filepath_Join [substring 0 2 name; substring 2 1 name]) /\
  (forall name, (4 <= String.length name)%nat ->
     indexDir name = filepath_Join [substring 0 2 name; substring 2 2 name]) /\
  (forall name name',
     String.length name = String.length name' ->
     substring 0 4 name = substring 0 4 name' ->
     indexDir name = indexDir name') /\
  (forall r ns name version st,
     exists calls,
       trace (snd (readEntry r ns name version st)) =
         (trace st ++ Call_Stat (indexPath r ns name) :: calls)%list) /\
  indexDir "a" = "a" /\
  indexDir "ab" = "ab" /\
  indexDir "abc" = filepath_Join ["ab"; "c"] /\
  indexDir "abcd" = filepath_Join ["ab"; "cd"] /\
  indexDir "abcde" = filepath_Join ["ab"; "cd"].
Proof.
  repeat split; try reflexivity.
  - intros name H. unfold indexDir.
    apply Nat.ltb_lt in H. rewrite H. reflexivity.
  - intros name H. unfold indexDir. rewrite H. reflexivity.
  - intros name H. unfold indexDir.
    destruct (Nat.ltb_spec (String.length name) 3); [lia|].
    destruct (Nat.ltb_spec (String.length name) 4); [lia|]. reflexivity.
  - intros name name' Hlen Hsub. unfold indexDir. rewrite <- Hlen.
    destruct name as [|a [|b [|c [|d name]]]];
      destruct name' as [|a' [|b' [|c' [|d' name']]]];
      simpl in Hlen; try discriminate Hlen; simpl in Hsub;
      try (injection Hsub as -> -> -> ->); try (injection Hsub as -> -> ->);
      try (injection Hsub as -> ->); try (injection Hsub as ->); try reflexivity.
    simpl. destruct name; destruct name'; reflexivity.
  - intros r ns name version st. apply readEntry_trace.
Qed.

(** C7.  [Validate] succeeds exactly on the entries whose address is not
    empty, parses as a reference under weak validation and parses as a
    digest reference.  An empty address fails with "address is a required
    field", an address that is no reference fails with the error of the
    parser, and a reference that is no digest (a tag) fails with "is not a
    digest reference". *)
Theorem Validate_digest_reference (b : Buildpack) :
  (Validate b = None <->
   Address b <> "" /\ ggcrname_ParseReference (Address b) = None /\
   ggcrname_NewDigest (Address b) = None) /\
  (Address b = "" -> Validate b = Some (errors_New "address is a required field")) /\
  (forall err, Address b <> "" -> ggcrname_ParseReference (Address b) = Some err ->
               Validate b = Some err) /\
  (forall err, Address b <> "" -> ggcrname_ParseReference (Address b) = None ->
               ggcrname_NewDigest (Address b) = Some err ->
               Validate b =
                 Some (errors_New ("'" ++ Address b ++ "' is not a digest reference"))).
Proof.
  unfold Validate.
  destruct (String.eqb_spec (Address b) "") as [He|Hne].
  - repeat split; try congruence. intros (H & _); congruence.
  - destruct (ggcrname_ParseReference (Address b)) as [e|];
      [|destruct (ggcrname_NewDigest (Address b)) as [e|]];
      repeat split; try congruence; try tauto; intros (_ & H1 & H2); congruence.
Qed.

(** C1, amended.  [LocateBuildpack] does not call [Validate]: an entry it
    returns is one of the entries that [readEntry] collected from the index
    file, as the decoder gave it, whatever its address. *)
Theorem LocateBuildpack_returns_collected_entry r bp st b st' :
  LocateBuildpack r bp st = ((b, None), st') ->
  exists ns name version st1 entry text,
    Refresh r st = (None, st1) /\
    ParseRegistryID bp = Ok (ns, name, version) /\
    readEntry r ns name version st1 = ((entry, None), st') /\
    In b (Buildpacks entry) /\
    json_Unmarshal text = Ok b.
Proof.
  intros H. pose proof H as H0. unfold LocateBuildpack, bind in H0.
  destruct (Refresh r st) as [[err|] st1] eqn:HR; [discriminate|].
  destruct (ParseRegistryID bp) as [[[ns name] version]|err] eqn:HP; [|discriminate].
  destruct (readEntry r ns name version st1) as [[[entries] [err|]] st2] eqn:HE;
    [discriminate|].
  clear H0.
  rewrite (LocateBuildpack_selected r bp ns name version st st1 st2 entries HR HP HE) in H.
  injection H as Hsel <-.
  assert (Hin : In b entries).
  { destruct entries as [|first others]; [discriminate|].
    unfold selected in Hsel. destruct (version =? "")%string.
    - injection Hsel as <-.
      destruct (fold_keep_first_max Buildpack compareVersions compareVersions_opp
                  compareVersions_trans others first) as (i & Hi & _).
      rewrite <- fold_higher_keep in Hi. apply nth_error_In in Hi. exact Hi.
    - destruct (find _ (first :: others)) as [h|] eqn:Hfind; [|discriminate].
      injection Hsel as <-. apply find_some in Hfind. apply Hfind. }
  destruct (readEntry_decoded r ns name version st1 _ st2 b HE Hin) as (text & Ht).
  exists ns, name, version, st1, {| Buildpacks := entries |}, text. auto.
Qed.

(** C2.  When the coordinate has no version and [readEntry] collected a
    non-empty list, [LocateBuildpack] returns an entry [h] of the list such
    that no entry has a version above the one of [h] for [semver.Compare]
    (with a [v] put before each version), whether yanked or not, and every
    entry before [h] has a version strictly below: [h] is the first of the
    entries with the highest version.  For versions 1.0.0, 2.1.0, 1.9.9 it
    is the second entry. *)
Theorem LocateBuildpack_highest_version r bp ns name st st1 st2 entries :
  Refresh r st = (None, st1) ->
  ParseRegistryID bp = Ok (ns, name, "") ->
  readEntry r ns name "" st1 = (({| Buildpacks := entries |}, None), st2) ->
  entries <> [] ->
  exists i h,
    LocateBuildpack r bp st = ((h, None), st2) /\
    nth_error entries i = Some h /\
    (forall b, In b entries ->
       semver.Compare ("v" ++ Version b) ("v" ++ Version h) <= 0) /\
    (forall j b, (j < i)%nat -> nth_error entries j = Some b ->
       semver.Compare ("v" ++ Version b) ("v" ++ Version h) < 0) /\
    (map Version entries = ["1.0.0"; "2.1.0"; "1.9.9"] -> i = 1%nat).
Proof.
  intros HR HP HE Hne.
  rewrite (LocateBuildpack_selected r bp ns name "" st st1 st2 entries HR HP HE).
  destruct entries as [|first others]; [contradiction|]. simpl.
  destruct (fold_keep_first_max Buildpack compareVersions compareVersions_opp
              compareVersions_trans others first) as (i & Hi & Hmax & Hfirst).
  rewrite <- fold_higher_keep in Hi, Hmax, Hfirst.
  exists i, (fold_left higher others first). repeat split; auto.
  intros Hv.
  destruct others as [|second [|third [|fourth others]]]; try discriminate Hv.
  injection Hv as H1 H2 H3.
  assert (Hh : fold_left higher [second; third] first = second).
  { assert (E1 : higher first second = second)
      by (unfold higher; rewrite H1, H2; reflexivity).
    assert (E2 : higher second third = second)
      by (unfold higher; rewrite H2, H3; reflexivity).
    simpl. rewrite E1, E2. reflexivity. }
  rewrite Hh in Hi, Hfirst.
  destruct i as [|[|[|i]]]; try reflexivity; exfalso.
  - injection Hi as Hi. subst second. rewrite H1 in H2. discriminate.
  - specialize (Hfirst 1%nat second ltac:(lia) eq_refl).
    pose proof (compareVersions_opp second second). lia.
  - simpl in Hi. destruct i; discriminate.
Qed.

(** C9.  When the coordinate has no version and no collected entry has a
    version that parses (with the [v] before it), all comparisons give 0 and
    [LocateBuildpack] returns the first entry of the file. *)
Theorem LocateBuildpack_unparsable_versions r bp ns name st st1 st2 entries :
  Refresh r st = (None, st1) ->
  ParseRegistryID bp = Ok (ns, name, "") ->
  readEntry r ns name "" st1 = (({| Buildpacks := entries |}, None), st2) ->
  entries <> [] ->
  (forall b, In b entries -> semver.IsValid ("v" ++ Version b) = false) ->
  (forall b b', In b entries -> In b' entries ->
     semver.Compare ("v" ++ Version b) ("v" ++ Version b') = 0) /\
  exists first,
    nth_error entries 0 = Some first /\
    LocateBuildpack r bp st = ((first, None), st2).
Proof.
  intros HR HP HE Hne Hinv.
  assert (Hzero : forall b b', In b entries -> In b' entries ->
            semver.Compare ("v" ++ Version b) ("v" ++ Version b') = 0).
  { intros b b' Hb Hb'. apply semver_order.Compare_invalid; auto. }
  split; [exact Hzero|].
  rewrite (LocateBuildpack_selected r bp ns name "" st st1 st2 entries HR HP HE).
  destruct entries as [|first others]; [contradiction|].
  exists first. split; [reflexivity|]. simpl.
  rewrite fold_higher_keep, fold_keep_all_equal; [reflexivity|].
  intros x y Hx Hy. unfold compareVersions. rewrite (Hzero x y Hx Hy). lia.
Qed.

(** C3.  When the coordinate has a version and [readEntry] collected a
    non-empty list, [LocateBuildpack] returns the first entry whose
    [Version] is that very string, wherever it stands in the list; when
    there is none it returns the error "could not find version for
    buildpack: " followed by the coordinate. *)
Theorem LocateBuildpack_exact_version r bp ns name version st st1 st2 entries :
  Refresh r st = (None, st1) ->
  ParseRegistryID bp = Ok (ns, name, version) ->
  version <> "" ->
  readEntry r ns name version st1 = (({| Buildpacks := entries |}, None), st2) ->
  entries <> [] ->
  (exists i h,
     LocateBuildpack r bp st = ((h, None), st2) /\
     nth_error entries i = Some h /\
     Version h = version /\
     forall j b, (j < i)%nat -> nth_error entries j = Some b -> Version b <> version)
  \/
  ((forall b, In b entries -> Version b <> version) /\
   LocateBuildpack r bp st =
     ((Buildpack_zero,
       Some (errors_New ("could not find version for buildpack: " ++ bp))), st2) /\
   Error (errors_New ("could not find version for buildpack: " ++ bp))
     = "could not find version for buildpack: " ++ bp).
Proof.
  intros HR HP Hv HE Hne.
  rewrite (LocateBuildpack_selected r bp ns name version st st1 st2 entries HR HP HE).
  destruct entries as [|first others]; [contradiction|].
  unfold selected. apply String.eqb_neq in Hv. rewrite Hv.
  destruct (find _ (first :: others)) as [h|] eqn:Hfind.
  - left. apply find_first in Hfind. destruct Hfind as (i & Hi & Hh & Hbefore).
    exists i, h. repeat split; auto.
    + apply String.eqb_eq; assumption.
    + intros j b Hj Hb. apply String.eqb_neq. eapply Hbefore; eauto.
  - right. repeat split.
    intros b Hb. apply String.eqb_neq. eapply find_none in Hfind; eauto.
Qed.

(** C8.  When the index file of the coordinate exists and opens and its
    scanner yields no line and no error, [LocateBuildpack] returns the
    error "no entries for buildpack: " followed by the coordinate. *)
Theorem LocateBuildpack_no_entries r bp ns name version st st1 sa file sb sc x st2 :
  Refresh r st = (None, st1) ->
  ParseRegistryID bp = Ok (ns, name, version) ->
  os_Stat (indexPath r ns name) st1 = (None, sa) ->
  os_Open (indexPath r ns name) sa = (Ok file, sb) ->
  bufio_Scan file sb = (([], None), sc) ->
  file_Close file sc = (x, st2) ->
  LocateBuildpack r bp st =
    ((Buildpack_zero, Some (errors_New ("no entries for buildpack: " ++ bp))), st2) /\
  Error (errors_New ("no entries for buildpack: " ++ bp))
    = "no entries for buildpack: " ++ bp.
Proof.
  intros HR HP HS HO HC HX. split; [|reflexivity].
  pose proof (readEntry_scanned r ns name version st1 sa file sb [] None sc x st2
                HS HO HC HX) as HE.
  simpl in HE.
  exact (LocateBuildpack_selected r bp ns name version st st1 st2 [] HR HP HE).
Qed.

(** C6.  When the index file opens but one of its lines does not parse, or
    its scanner ends with an error, [LocateBuildpack] returns an error
    wrapped as "reading entry" together with the zero [Buildpack]: nothing
    of the lines parsed so far reaches the caller. *)
Theorem LocateBuildpack_read_failure
    r bp ns name version st st1 sa file sb lines scanErr sc x st2 :
  Refresh r st = (None, st1) ->
  ParseRegistryID bp = Ok (ns, name, version) ->
  os_Stat (indexPath r ns name) st1 = (None, sa) ->
  os_Open (indexPath r ns name) sa = (Ok file, sb) ->
  bufio_Scan file sb = ((lines, scanErr), sc) ->
  file_Close file sc = (x, st2) ->
  (exists text err, In text lines /\ json_Unmarshal text = Err err) \/ scanErr <> None ->
  exists err,
    LocateBuildpack r bp st =
      ((Buildpack_zero, Some (errors_Wrap err "reading entry")), st2).
Proof.
  intros HR HP HS HO HC HX Hbad.
  pose proof (readEntry_scanned r ns name version st1 sa file sb lines scanErr sc x st2
                HS HO HC HX) as HE.
  destruct (scanLines ns name Entry_zero lines) as [entry|perr] eqn:Hscan.
  - destruct scanErr as [serr|].
    + eexists. eapply LocateBuildpack_read_error; eauto.
    + exfalso. destruct Hbad as [(text & err & Hin & Herr)|Hbad]; [|congruence].
      destruct (scanLines_bad ns name lines Entry_zero text err Hin Herr) as (e & He).
      congruence.
  - eexists. eapply LocateBuildpack_read_error; eauto.
Qed.

End Resolution.

(* ================================================================= *)
(** ** More on the mirror *)

Section MoreMirror.

Context {O : OS}.

Ltac trace_norm := repeat rewrite <- app_assoc; simpl.

Lemma count_app p a b : count p (a ++ b)%list = (count p a + count p b)%nat.
Proof. unfold count. rewrite filter_app, length_app. reflexivity. Qed.

Lemma count_cons p c l : count p (c :: l) = ((if p c then 1 else 0) + count p l)%nat.
Proof. unfold count. simpl. destruct (p c); reflexivity. Qed.

Lemma count_nil p : count p [] = 0%nat.
Proof. reflexivity. Qed.

Ltac count_norm := rewrite ?count_app, ?count_cons, ?count_nil; simpl.

Lemma call_inv {A : Type} (c : Call) (op : World -> A * World) st a st' :
  call c op st = (a, st') ->
  exists w, op (world st) = (a, w) /\ st' = {| world := w; trace := (trace st ++ [c])%list |}.
Proof.
  unfold call. destruct (op (world st)) as [a' w]. intros H; injection H as <- <-. eauto.
Qed.

Lemma createCache_shape r st err st' :
  createCache r st = (err, st') ->
  exists calls,
    trace st' = (trace st ++ calls)%list /\
    ((err <> None /\ calls = [Call_TempDir "" "registry"]) \/
     exists root w1,
       sys_TempDir "" "registry" (world st) = (Ok root, w1) /\
       ((err <> None /\
         calls = [Call_TempDir "" "registry"; Call_PlainClone root false (URL r)]) \/
        (err <> None /\
         calls = [Call_TempDir "" "registry"; Call_PlainClone root false (URL r);
                  Call_Worktree]) \/
        (exists w,
           calls = [Call_TempDir "" "registry"; Call_PlainClone root false (URL r);
                    Call_Worktree; Call_Rename (Filesystem_Root w) (Root r)]))).
Proof.
  unfold createCache, bind.
  destruct (ioutil_TempDir "" "registry" st) as [[root|e] s1] eqn:H1.
  - pose proof (call_trace_eq _ _ _ _ _ H1) as T1.
    apply call_inv in H1. destruct H1 as (w1 & H1 & _).
    destruct (git_PlainClone root false (URL r) s1) as [[repo|e] s2] eqn:H2;
      apply call_trace_eq in H2.
    + destruct (repository_Worktree repo s2) as [[w|e] s3] eqn:H3;
        apply call_trace_eq in H3.
      * intros H4. apply call_trace_eq in H4.
        eexists. split; [rewrite H4, H3, H2, T1, <- !app_assoc; reflexivity|].
        right. exists root, w1. split; [exact H1|]. right; right. exists w. reflexivity.
      * intros H; injection H as <- <-.
        eexists. split; [rewrite H3, H2, T1, <- !app_assoc; reflexivity|].
        right. exists root, w1. split; [exact H1|]. right; left.
        split; [discriminate|reflexivity].
    + intros H; injection H as <- <-.
      eexists. split; [rewrite H2, T1, <- !app_assoc; reflexivity|].
      right. exists root, w1. split; [exact H1|]. left.
      split; [discriminate|reflexivity].
  - apply call_trace_eq in H1. intros H; injection H as <- <-.
    eexists. split; [exact H1|]. left. split; [discriminate|reflexivity].
Qed.

Lemma createCache_counts r st err st' :
  createCache r st = (err, st') ->
  exists calls,
    trace st' = (trace st ++ calls)%list /\
    count is_remove calls = 0%nat /\ (count is_clone calls <= 1)%nat.
Proof.
  intros H. apply createCache_shape in H. destruct H as (calls & Ht & Hs).
  exists calls. split; [exact Ht|].
  destruct Hs as [[_ ->]|(root & w1 & _ & [[_ ->]|[[_ ->]|(w & ->)]])];
    split; count_norm; lia.
Qed.

Lemma validateCache_shape r st err st' :
  validateCache r st = (err, st') ->
  (trace st' = (trace st ++ [Call_PlainOpen (Root r)])%list /\
   exists cause, err = Some (errors_Wrap cause "could not open registry cache")) \/
  trace st' = (trace st ++ [Call_PlainOpen (Root r); Call_Remotes])%list.
Proof.
  unfold validateCache, bind.
  destruct (git_PlainOpen (Root r) st) as [[repo|e] s1] eqn:H1; apply call_trace_eq in H1.
  - destruct (repository_Remotes repo s1) as [[remotes|e] s2] eqn:H2;
      apply call_trace_eq in H2.
    + assert (Ht : trace s2 = (trace st ++ [Call_PlainOpen (Root r); Call_Remotes])%list).
      { rewrite H2, H1, <- app_assoc. reflexivity. }
      destruct (_ || _); [|destruct (negb _)]; intros H; injection H as <- <-; auto.
    + intros H; injection H as <- <-. right. rewrite H2, H1, <- app_assoc. reflexivity.
  - intros H; injection H as <- <-. left. eauto.
Qed.

Lemma Initialize_cases r st :
  Initialize r st =
    (let (serr, st1) := os_Stat (Root r) st in
     if match serr with Some e => os_IsNotExist e | None => false end then
       let (cerr, st2) := createCache r st1 in
       match cerr with
       | Some e => (Some (errors_Wrap e "could not create registry cache"), st2)
       | None => repair r st2
       end
     else repair r st1).
Proof.
  unfold Initialize, bind.
  destruct (os_Stat (Root r) st) as [[e|] st1]; [|reflexivity].
  destruct (os_IsNotExist e); [|reflexivity].
  destruct (createCache r st1) as [[e'|] st2]; reflexivity.
Qed.

Lemma repair_shape r st err st' :
  repair r st = (err, st') ->
  initialize_error err /\
  exists calls,
    trace st' = (trace st ++ Call_PlainOpen (Root r) :: calls)%list /\
    (count is_remove calls <= 1)%nat /\ (count is_clone calls <= 1)%nat.
Proof.
  intros H. unfold repair, bind in H.
  destruct (validateCache r st) as [verr s1] eqn:HV.
  apply validateCache_shape in HV.
  assert (HV' : exists v, trace s1 = (trace st ++ Call_PlainOpen (Root r) :: v)%list /\
                          count is_remove v = 0%nat /\ count is_clone v = 0%nat).
  { destruct HV as [[HV _]|HV]; [exists [] | exists [Call_Remotes]];
      rewrite HV; repeat split. }
  clear HV. destruct HV' as (v & HV & Hr & Hc).
  destruct verr as [e|].
  - destruct (os_RemoveAll (Root r) s1) as [[e1|] s2] eqn:HR; apply call_trace_eq in HR.
    + injection H as <- <-. split; [right; right; eauto|].
      exists (v ++ [Call_RemoveAll (Root r)])%list.
      rewrite HR, HV. trace_norm. split; [reflexivity|].
      count_norm. lia.
    + destruct (createCache r s2) as [cerr s3] eqn:HC.
      apply createCache_counts in HC. destruct HC as (calls & HC & Hr' & Hc').
      assert (Hres : initialize_error err /\ st' = s3).
      { destruct cerr; injection H as <- <-; split; auto;
          [right; left; eauto | left; reflexivity]. }
      destruct Hres as [Herr ->]. split; [exact Herr|].
      exists (v ++ Call_RemoveAll (Root r) :: calls)%list.
      rewrite HC, HR, HV. trace_norm. split.
      * reflexivity.
      * count_norm. lia.
  - injection H as <- <-. split; [left; reflexivity|].
    exists v. split; [exact HV|]. lia.
Qed.

Lemma Initialize_shape r st :
  initialize_error (fst (Initialize r st)) /\
  exists calls,
    trace (snd (Initialize r st)) = (trace st ++ Call_Stat (Root r) :: calls)%list /\
    (count is_remove calls <= 1)%nat /\ (count is_clone calls <= 2)%nat.
Proof.
  rewrite Initialize_cases.
  destruct (os_Stat (Root r) st) as [serr st1] eqn:HS. apply call_trace_eq in HS.
  destruct (match serr with Some e => os_IsNotExist e | None => false end).
  - destruct (createCache r st1) as [cerr st2] eqn:HC.
    apply createCache_counts in HC. destruct HC as (calls & HC & Hr & Hc).
    destruct cerr as [e|].
    + simpl. split; [right; left; eauto|].
      exists calls. rewrite HC, HS. trace_norm. repeat split; lia.
    + destruct (repair r st2) as [err st3] eqn:HP.
      apply repair_shape in HP. destruct HP as (Herr & calls' & HP & Hr' & Hc').
      simpl. split; [exact Herr|].
      exists (calls ++ Call_PlainOpen (Root r) :: calls')%list.
      rewrite HP, HC, HS. trace_norm. split; [reflexivity|].
      count_norm. lia.
  - destruct (repair r st1) as [err st3] eqn:HP.
    apply repair_shape in HP. destruct HP as (Herr & calls' & HP & Hr' & Hc').
    simpl. split; [exact Herr|].
    exists (Call_PlainOpen (Root r) :: calls').
    rewrite HP, HS. trace_norm. split; [reflexivity|].
    count_norm. lia.
Qed.

(** X1.  [validateCache] returns [nil] exactly when the repository at the
    root opens, its remotes can be listed, and there is one remote with one
    URL, the URL of the cache. *)
Theorem validateCache_accepts_single_origin r st :
  fst (validateCache r st) = None <->
  exists repository s1 remotes s2,
    git_PlainOpen (Root r) st = (Ok repository, s1) /\
    repository_Remotes repository s1 = (Ok remotes, s2) /\
    exists remote, remotes = [remote] /\ Config_URLs remote = [URL r].
Proof.
  split.
  - intros H.
    destruct (git_PlainOpen (Root r) st) as [[repo|e] s1] eqn:H1.
    + destruct (repository_Remotes repo s1) as [[remotes|e] s2] eqn:H2.
      * destruct (validateCache_remotes r st _ _ _ _ H1 H2) as [[Hv _]|[_ [Hx|Hx]]];
          [exists repo, s1, remotes, s2; auto | | ];
          rewrite Hx in H; discriminate H.
      * unfold validateCache, bind in H. rewrite H1, H2 in H. discriminate H.
    + unfold validateCache, bind in H. rewrite H1 in H. discriminate H.
  - intros (repo & s1 & remotes & s2 & H1 & H2 & Hv).
    destruct (validateCache_remotes r st _ _ _ _ H1 H2) as [[_ Hx]|[Hn _]];
      [rewrite Hx; reflexivity | contradiction].
Qed.

(** X2.  [validateCache] only reads: it opens the repository at the root
    and, when that succeeds, lists its remotes; it makes no other call. *)
Theorem validateCache_only_reads r st :
  trace (snd (validateCache r st)) = (trace st ++ [Call_PlainOpen (Root r)])%list \/
  trace (snd (validateCache r st))
    = (trace st ++ [Call_PlainOpen (Root r); Call_Remotes])%list.
Proof.
  destruct (validateCache r st) as [err st'] eqn:H.
  apply validateCache_shape in H. simpl. tauto.
Qed.


(** X4.  On a valid mirror [Initialize] changes nothing: when the root
    exists and the repository has the URL of the cache as its only remote
    URL, [Initialize] returns [nil] after [os.Stat], the opening of the
    repository and the listing of its remotes, and makes no other call. *)
Theorem Initialize_valid_mirror_untouched r st st1 repository s2 remote s3 :
  os_Stat (Root r) st = (None, st1) ->
  git_PlainOpen (Root r) st1 = (Ok repository, s2) ->
  repository_Remotes repository s2 = (Ok [remote], s3) ->
  Config_URLs remote = [URL r] ->
  Initialize r st = (None, s3) /\
  trace s3 = (trace st ++ [Call_Stat (Root r); Call_PlainOpen (Root r); Call_Remotes])%list.
Proof.
  intros HS H1 H2 Hu.
  assert (HV : validateCache r st1 = (None, s3)).
  { destruct (validateCache_remotes r st1 _ _ _ _ H1 H2) as [[_ Hx]|[Hn _]];
      [exact Hx | exfalso; apply Hn; exists remote; auto]. }
  split.
  - unfold Initialize, bind. rewrite HS, HV. reflexivity.
  - apply call_trace_eq in HS, H1, H2. rewrite H2, H1, HS, <- !app_assoc. reflexivity.
Qed.

(** X5.  When the root is absent and the creation of the mirror fails,
    [Initialize] returns that failure wrapped as "could not create registry
    cache" at once: after [os.Stat] only calls of the creation are made, so
    nothing is validated and nothing is removed. *)
Theorem Initialize_creation_failure r st err st1 cause st2 :
  os_Stat (Root r) st = (Some err, st1) ->
  os_IsNotExist err = true ->
  createCache r st1 = (Some cause, st2) ->
  Initialize r st = (Some (errors_Wrap cause "could not create registry cache"), st2) /\
  exists calls,
    trace st2 = (trace st ++ Call_Stat (Root r) :: calls)%list /\
    Forall creation_call calls.
Proof.
  intros HS HN HC. split.
  - unfold Initialize, bind. rewrite HS, HN, HC. reflexivity.
  - apply createCache_trace in HC. destruct HC as (calls & HC & Hall).
    apply call_trace_eq in HS. exists calls.
    rewrite HC, HS, <- app_assoc. auto.
Qed.

(** X6.  [Initialize] returns [nil] or an error wrapped as "could not
    create registry cache" or as "could not reset registry cache"; an error
    of [os.Stat] or of [validateCache] is never returned. *)
Theorem Initialize_errors r st :
  fst (Initialize r st) = None \/
  (exists cause,
     fst (Initialize r st) = Some (errors_Wrap cause "could not create registry cache")) \/
  (exists cause,
     fst (Initialize r st) = Some (errors_Wrap cause "could not reset registry cache")).
Proof. apply (proj1 (Initialize_shape r st)). Qed.

(** X7.  An error of [os.Stat] that is no not-exist error is dropped:
    [Initialize] goes on with the validation of the mirror, without
    creating it first, and returns [nil] when the validation passes. *)
Theorem Initialize_stat_error_dropped r st err st1 :
  os_Stat (Root r) st = (Some err, st1) ->
  os_IsNotExist err = false ->
  (exists calls,
     trace (snd (Initialize r st))
       = (trace st ++ Call_Stat (Root r) :: Call_PlainOpen (Root r) :: calls)%list) /\
  (forall st2, validateCache r st1 = (None, st2) -> Initialize r st = (None, st2)).
Proof.
  intros HS HN. split.
  - rewrite Initialize_cases, HS, HN.
    destruct (repair r st1) as [e st3] eqn:HP.
    apply repair_shape in HP. destruct HP as (_ & calls & HP & _).
    apply call_trace_eq in HS. exists calls. simpl.
    rewrite HP, HS, <- app_assoc. reflexivity.
  - intros st2 HV. unfold Initialize, bind. rewrite HS, HN, HV. reflexivity.
Qed.

(** X8.  One call of [Initialize] removes the root at most once and clones
    the registry at most twice, whatever the environment answers. *)
Theorem Initialize_bounded_repair r st :
  exists calls,
    trace (snd (Initialize r st)) = (trace st ++ Call_Stat (Root r) :: calls)%list /\
    (count is_remove calls <= 1)%nat /\ (count is_clone calls <= 2)%nat.
Proof. apply (proj2 (Initialize_shape r st)). Qed.

(** X9.  [Refresh] never returns the value [git.NoErrAlreadyUpToDate]:
    a pull that is already up to date is a success, and every other error
    of [Refresh] is a wrapped error or the error of the pull. *)
Theorem Refresh_never_reports_up_to_date r st :
  fst (Refresh r st) <> Some git_NoErrAlreadyUpToDate.
Proof.
  unfold Refresh, bind.
  pose proof (proj1 (Initialize_shape r st)) as HI.
  destruct (Initialize r st) as [[e|] s1].
  - simpl in *. destruct HI as [HI|[(c & HI)|(c & HI)]];
      injection HI as ->  || discriminate HI; discriminate.
  - destruct (git_PlainOpen (Root r) s1) as [[repo|e] s2]; [|simpl; discriminate].
    destruct (repository_Worktree repo s2) as [[w|e] s3]; [|simpl; discriminate].
    destruct (worktree_Pull w "origin" s3) as [[[]|] s4]; simpl; discriminate.
Qed.

(** X10.  [Refresh] succeeds exactly when [Initialize] succeeds, the
    repository at the root opens, its worktree is available and the pull
    from the remote "origin" returns [nil] or [git.NoErrAlreadyUpToDate]. *)
Theorem Refresh_success r st :
  fst (Refresh r st) = None <->
  exists s1 repository s2 w s3 pulled s4,
    Initialize r st = (None, s1) /\
    git_PlainOpen (Root r) s1 = (Ok repository, s2) /\
    repository_Worktree repository s2 = (Ok w, s3) /\
    worktree_Pull w "origin" s3 = (pulled, s4) /\
    (pulled = None \/ pulled = Some git_NoErrAlreadyUpToDate).
Proof.
  unfold Refresh, bind. split.
  - destruct (Initialize r st) as [[e|] s1]; [discriminate|].
    destruct (git_PlainOpen (Root r) s1) as [[repo|e] s2] eqn:H1; [|discriminate].
    destruct (repository_Worktree repo s2) as [[w|e] s3] eqn:H2; [|discriminate].
    destruct (worktree_Pull w "origin" s3) as [pulled s4] eqn:H3.
    intros H. exists s1, repo, s2, w, s3, pulled, s4. repeat split; auto.
    destruct pulled as [[]|]; simpl in H; try discriminate H; auto.
  - intros (s1 & repo & s2 & w & s3 & pulled & s4 & H0 & H1 & H2 & H3 & [-> | ->]);
      rewrite H0, H1, H2, H3; reflexivity.
Qed.

End MoreMirror.
(* ================================================================= *)
(** ** More on the index and on the resolution *)

Section MoreResolution.

Context {L : Libs} {O : OS}.

Ltac trace_norm := repeat rewrite <- app_assoc; simpl.

Lemma scanLines_all ns name lines : forall bs entry,
  Forall2 (fun text b => json_Unmarshal text = Ok b) lines bs ->
  scanLines ns name entry lines = Ok {| Buildpacks := (Buildpacks entry ++ bs)%list |}.
Proof.
  induction lines as [|t lines IH]; intros bs entry Hall; inversion Hall; subst; simpl.
  - rewrite app_nil_r. destruct entry; reflexivity.
  - match goal with H : json_Unmarshal t = Ok _ |- _ => rewrite H end.
    rewrite (IH _ _ ltac:(eassumption)). simpl. rewrite <- app_assoc. reflexivity.
Qed.

Lemma scanLines_first_bad ns name good : forall bs entry bad rest e,
  Forall2 (fun text b => json_Unmarshal text = Ok b) good bs ->
  json_Unmarshal bad = Err e ->
  scanLines ns name entry (good ++ bad :: rest)%list =
    Err (errors_Wrap e ("could not parse index for buildpack: " ++ ns ++ "/" ++ name)).
Proof.
  induction good as [|t good IH]; intros bs entry bad rest e Hall Hbad;
    inversion Hall; subst; simpl.
  - rewrite Hbad. reflexivity.
  - match goal with H : json_Unmarshal t = Ok _ |- _ => rewrite H end.
    eapply IH; eauto.
Qed.

Lemma quiet_app a b : quiet a -> quiet b -> quiet (a ++ b)%list.
Proof. unfold quiet. intros Ha Hb. rewrite forallb_app, Ha, Hb. reflexivity. Qed.

Lemma readEntry_shape r ns name version st :
  exists calls,
    trace (snd (readEntry r ns name version st)) = (trace st ++ calls)%list /\
    quiet calls.
Proof.
  unfold readEntry, bind.
  destruct (os_Stat _ st) as [[err|] sa] eqn:HS; apply call_trace_eq in HS.
  - simpl. rewrite HS. eexists; split; [reflexivity|reflexivity].
  - destruct (os_Open _ sa) as [[file|err] sb] eqn:HO; apply call_trace_eq in HO.
    + destruct (bufio_Scan file sb) as [scanned sc] eqn:HC; apply call_trace_eq in HC.
      destruct (file_Close file sc) as [x sd] eqn:HX; apply call_trace_eq in HX.
      assert (Ht : exists calls, trace sd = (trace st ++ calls)%list /\ quiet calls).
      { rewrite HX, HC, HO, HS. trace_norm. eexists; split; reflexivity. }
      destruct (scanLines ns name Entry_zero (fst scanned)); [destruct (snd scanned)|];
        exact Ht.
    + simpl. rewrite HO, HS. trace_norm. eexists; split; reflexivity.
Qed.

Lemma Refresh_shape r st s1 :
  Initialize r st = (None, s1) ->
  exists calls,
    trace (snd (Refresh r st)) = (trace s1 ++ calls)%list /\ quiet calls.
Proof.
  intros HI. unfold Refresh, bind. rewrite HI.
  destruct (git_PlainOpen (Root r) s1) as [[repo|e] s2] eqn:H1; apply call_trace_eq in H1.
  - destruct (repository_Worktree repo s2) as [[w|e] s3] eqn:H2; apply call_trace_eq in H2.
    + destruct (worktree_Pull w "origin" s3) as [pulled s4] eqn:H3.
      apply call_trace_eq in H3.
      assert (Ht : exists calls, trace s4 = (trace s1 ++ calls)%list /\ quiet calls).
      { rewrite H3, H2, H1. trace_norm. eexists; split; reflexivity. }
      destruct pulled as [[]|]; exact Ht.
    + simpl. rewrite H2, H1. trace_norm. eexists; split; reflexivity.
  - simpl. rewrite H1. eexists; split; reflexivity.
Qed.

(** X11.  When the index file is missing, [readEntry] returns the error of
    [os.Stat] wrapped as "could not find buildpack: ns/name" without opening
    anything; when it exists but does not open, the error of [os.Open]
    wrapped as "could not open index for buildpack: ns/name", and the file
    is neither scanned nor closed.  Both come with the zero [Entry]. *)
Theorem readEntry_unavailable_index r ns name version st :
  (forall err sa,
     os_Stat (indexPath r ns name) st = (Some err, sa) ->
     readEntry r ns name version st =
       ((Entry_zero,
         Some (errors_Wrap err ("could not find buildpack: " ++ ns ++ "/" ++ name))), sa) /\
     trace sa = (trace st ++ [Call_Stat (indexPath r ns name)])%list) /\
  (forall sa err sb,
     os_Stat (indexPath r ns name) st = (None, sa) ->
     os_Open (indexPath r ns name) sa = (Err err, sb) ->
     readEntry r ns name version st =
       ((Entry_zero,
         Some (errors_Wrap err
                 ("could not open index for buildpack: " ++ ns ++ "/" ++ name))), sb) /\
     trace sb = (trace st ++ [Call_Stat (indexPath r ns name);
                              Call_Open (indexPath r ns name)])%list).
Proof.
  unfold indexPath. split.
  - intros err sa HS. split.
    + unfold readEntry, bind. rewrite HS. reflexivity.
    + eapply call_trace_eq; exact HS.
  - intros sa err sb HS HO. split.
    + unfold readEntry, bind. rewrite HS, HO. reflexivity.
    + apply call_trace_eq in HS, HO. rewrite HO, HS. trace_norm. reflexivity.
Qed.

(** X12.  A file that [readEntry] has opened is scanned once and closed
    once, whatever its lines hold and whatever the scanner reports. *)
Theorem readEntry_closes_opened_file r ns name version st sa file sb :
  os_Stat (indexPath r ns name) st = (None, sa) ->
  os_Open (indexPath r ns name) sa = (Ok file, sb) ->
  trace (snd (readEntry r ns name version st)) =
    (trace st ++ [Call_Stat (indexPath r ns name); Call_Open (indexPath r ns name);
                  Call_Scan; Call_Close])%list.
Proof.
  unfold indexPath. intros HS HO. unfold readEntry, bind. rewrite HS, HO.
  apply call_trace_eq in HS, HO.
  destruct (bufio_Scan file sb) as [scanned sc] eqn:HC; apply call_trace_eq in HC.
  destruct (file_Close file sc) as [x sd] eqn:HX; apply call_trace_eq in HX.
  assert (Ht : trace sd = (trace st ++
                 [Call_Stat (filepath_Join [Root r; indexDir name; (ns ++ "_" ++ name)%string]);
                  Call_Open (filepath_Join [Root r; indexDir name; (ns ++ "_" ++ name)%string]);
                  Call_Scan; Call_Close])%list).
  { rewrite HX, HC, HO, HS. trace_norm. reflexivity. }
  destruct (scanLines ns name Entry_zero (fst scanned)); [destruct (snd scanned)|];
    exact Ht.
Qed.

(** X13.  When every line of the index file parses and the scanner ends
    without error, [readEntry] returns one entry for each line, in the order
    of the file, and no error. *)
Theorem readEntry_collects_lines_in_order
    r ns name version st sa file sb lines sc x st2 bs :
  os_Stat (indexPath r ns name) st = (None, sa) ->
  os_Open (indexPath r ns name) sa = (Ok file, sb) ->
  bufio_Scan file sb = ((lines, None), sc) ->
  file_Close file sc = (x, st2) ->
  Forall2 (fun text b => json_Unmarshal text = Ok b) lines bs ->
  readEntry r ns name version st = (({| Buildpacks := bs |}, None), st2).
Proof.
  intros HS HO HC HX Hall.
  rewrite (readEntry_scanned r ns name version st sa file sb lines None sc x st2
             HS HO HC HX).
  rewrite (scanLines_all ns name lines bs Entry_zero Hall). reflexivity.
Qed.

(** X14.  When every line the scanner yields parses but the scanner ends
    with an error, [readEntry] returns that error wrapped as "could not read
    index for buildpack: ns/name" together with the entries of the lines
    read before it, not with the zero [Entry]. *)
Theorem readEntry_scan_error_keeps_entries
    r ns name version st sa file sb lines serr sc x st2 bs :
  os_Stat (indexPath r ns name) st = (None, sa) ->
  os_Open (indexPath r ns name) sa = (Ok file, sb) ->
  bufio_Scan file sb = ((lines, Some serr), sc) ->
  file_Close file sc = (x, st2) ->
  Forall2 (fun text b => json_Unmarshal text = Ok b) lines bs ->
  readEntry r ns name version st =
    (({| Buildpacks := bs |},
      Some (errors_Wrap serr ("could not read index for buildpack: " ++ ns ++ "/" ++ name))),
     st2).
Proof.
  intros HS HO HC HX Hall.
  rewrite (readEntry_scanned r ns name version st sa file sb lines (Some serr) sc x st2
             HS HO HC HX).
  rewrite (scanLines_all ns name lines bs Entry_zero Hall). reflexivity.
Qed.

(** X15.  The first line that does not parse decides the result of
    [readEntry]: the error of the decoder on that line, wrapped as "could not
    parse index for buildpack: ns/name", with the zero [Entry], whatever
    follows the line and whatever the scanner reports at the end. *)
Theorem readEntry_first_bad_line
    r ns name version st sa file sb good bad rest scanErr sc x st2 bs e :
  os_Stat (indexPath r ns name) st = (None, sa) ->
  os_Open (indexPath r ns name) sa = (Ok file, sb) ->
  bufio_Scan file sb = (((good ++ bad :: rest)%list, scanErr), sc) ->
  file_Close file sc = (x, st2) ->
  Forall2 (fun text b => json_Unmarshal text = Ok b) good bs ->
  json_Unmarshal bad = Err e ->
  readEntry r ns name version st =
    ((Entry_zero,
      Some (errors_Wrap e ("could not parse index for buildpack: " ++ ns ++ "/" ++ name))),
     st2).
Proof.
  intros HS HO HC HX Hall Hbad.
  rewrite (readEntry_scanned r ns name version st sa file sb _ scanErr sc x st2
             HS HO HC HX).
  rewrite (scanLines_first_bad ns name good bs Entry_zero bad rest e Hall Hbad).
  reflexivity.
Qed.

(** X16.  [LocateBuildpack] refreshes the cache before it looks at the
    coordinate: for a coordinate that does not parse, a failure of the
    refresh is what is returned (wrapped as "refreshing cache"), and
    otherwise the error of the parser as it is; in both cases no call
    is made after the refresh. *)
Theorem LocateBuildpack_refreshes_before_parsing r bp st e :
  ParseRegistryID bp = Err e ->
  LocateBuildpack r bp st =
    (let (refreshed, s1) := Refresh r st in
     ((Buildpack_zero,
       Some match refreshed with
            | Some err => errors_Wrap err "refreshing cache"
            | None => e
            end), s1)).
Proof.
  intros HP. unfold LocateBuildpack, bind.
  destruct (Refresh r st) as [[err|] s1]; [reflexivity|]. rewrite HP. reflexivity.
Qed.

(** X17.  Whenever [LocateBuildpack] returns an error, the [Buildpack] it
    returns with it is the zero value. *)
Theorem LocateBuildpack_error_returns_zero r bp st :
  snd (fst (LocateBuildpack r bp st)) <> None ->
  fst (fst (LocateBuildpack r bp st)) = Buildpack_zero.
Proof.
  unfold LocateBuildpack, bind.
  destruct (Refresh r st) as [[err|] s1]; [reflexivity|].
  destruct (ParseRegistryID bp) as [[[ns name] version]|err]; [|reflexivity].
  destruct (readEntry r ns name version s1) as [[[entries] [err|]] s2]; [reflexivity|].
  cbn [Buildpacks]. unfold ret.
  destruct (0 <? List.length entries)%nat; [|reflexivity].
  destruct (version =? "")%string.
  - cbn [fst snd]. congruence.
  - destruct (find _ entries); cbn [fst snd]; congruence.
Qed.

(** X19.  On a valid mirror a resolution changes nothing on disk: when
    the root exists and the repository has the URL of the cache as its only
    remote URL, [LocateBuildpack] makes no call that creates, clones,
    renames or removes, whatever the pull, the coordinate and the index file
    are. *)
Theorem LocateBuildpack_valid_mirror_quiet r bp st st1 repository s2 remote s3 :
  os_Stat (Root r) st = (None, st1) ->
  git_PlainOpen (Root r) st1 = (Ok repository, s2) ->
  repository_Remotes repository s2 = (Ok [remote], s3) ->
  Config_URLs remote = [URL r] ->
  exists calls,
    trace (snd (LocateBuildpack r bp st)) = (trace st ++ calls)%list /\ quiet calls.
Proof.
  intros HS H1 H2 Hu.
  assert (HV : validateCache r st1 = (None, s3)).
  { destruct (validateCache_remotes r st1 _ _ _ _ H1 H2) as [[_ Hx]|[Hn _]];
      [exact Hx | exfalso; apply Hn; exists remote; auto]. }
  assert (HI : Initialize r st = (None, s3)).
  { unfold Initialize, bind. rewrite HS, HV. reflexivity. }
  assert (Ht : exists c0, trace s3 = (trace st ++ c0)%list /\ quiet c0).
  { apply call_trace_eq in HS, H1, H2. rewrite H2, H1, HS. trace_norm.
    eexists; split; reflexivity. }
  destruct Ht as (c0 & Ht & Hq0).
  destruct (Refresh_shape r st s3 HI) as (c1 & HR & Hq1).
  unfold LocateBuildpack, bind.
  destruct (Refresh r st) as [rerr sr]. simpl in HR.
  assert (Hsr : exists c, trace sr = (trace st ++ c)%list /\ quiet c).
  { exists (c0 ++ c1)%list. rewrite HR, Ht, <- app_assoc. split; [reflexivity|].
    apply quiet_app; assumption. }
  clear HR Ht. destruct rerr as [err|]; [exact Hsr|].
  destruct (ParseRegistryID bp) as [[[ns name] version]|err]; [|exact Hsr].
  destruct Hsr as (c & Hsr & Hq).
  destruct (readEntry_shape r ns name version sr) as (c2 & HE & Hq2).
  destruct (readEntry r ns name version sr) as [[entry err] se]. simpl in HE.
  assert (Hse : exists c, trace se = (trace st ++ c)%list /\ quiet c).
  { exists (c ++ c2)%list. rewrite HE, Hsr, <- app_assoc. split; [reflexivity|].
    apply quiet_app; assumption. }
  destruct err; [exact Hse|].
  destruct (0 <? List.length (Buildpacks entry))%nat; [|exact Hse].
  destruct (version =? "")%string; [exact Hse|].
  destruct (find _ (Buildpacks entry)); exact Hse.
Qed.

End MoreResolution.

(* ================================================================= *)
(** ** The selection looks at versions only *)

Lemma version_at (entries1 entries2 : list Buildpack) i b1 b2 :
  map Version entries1 = map Version entries2 ->
  nth_error entries1 i = Some b1 ->
  nth_error entries2 i = Some b2 ->
  Version b1 = Version b2.
Proof.
  intros Hm H1 H2.
  apply (map_nth_error Version) in H1. apply (map_nth_error Version) in H2.
  rewrite Hm in H1. congruence.
Qed.

Lemma higher_same_index others1 : forall others2 first1 first2,
  map Version (first1 :: others1) = map Version (first2 :: others2) ->
  exists i,
    nth_error (first1 :: others1) i = Some (fold_left higher others1 first1) /\
    nth_error (first2 :: others2) i = Some (fold_left higher others2 first2).
Proof.
  induction others1 as [|x1 l1 IH] using rev_ind; intros others2 first1 first2 Hm.
  - destruct others2; [|discriminate Hm]. exists 0%nat. split; reflexivity.
  - assert (Hne : others2 <> []).
    { intros ->. apply (f_equal (@List.length string)) in Hm.
      simpl in Hm. rewrite length_map, length_app in Hm. simpl in Hm. lia. }
    destruct (exists_last Hne) as (l2 & x2 & ->).
    simpl in Hm. rewrite !map_app in Hm. simpl in Hm.
    injection Hm as Hf Hm. apply app_inj_tail in Hm. destruct Hm as [Hm Hx].
    assert (Hm' : map Version (first1 :: l1) = map Version (first2 :: l2)).
    { simpl. congruence. }
    destruct (IH l2 first1 first2 Hm') as (i & H1 & H2).
    rewrite !fold_left_app. simpl.
    set (h1 := fold_left higher l1 first1) in *.
    set (h2 := fold_left higher l2 first2) in *.
    assert (Hv : Version h1 = Version h2) by (eapply version_at; eauto).
    assert (Hlen : List.length l1 = List.length l2).
    { apply (f_equal (@List.length string)) in Hm. rewrite !length_map in Hm. exact Hm. }
    assert (Hi : (i < List.length (first1 :: l1))%nat).
    { apply nth_error_Some. rewrite H1. discriminate. }
    unfold higher. rewrite Hx, Hv.
    destruct (0 <? semver.Compare ("v" ++ Version x2) ("v" ++ Version h2)).
    + exists (List.length (first1 :: l1)). split.
      * change (first1 :: (l1 ++ [x1])%list) with ((first1 :: l1) ++ [x1])%list.
        rewrite nth_error_app2, Nat.sub_diag by lia. reflexivity.
      * change (first2 :: (l2 ++ [x2])%list) with ((first2 :: l2) ++ [x2])%list.
        simpl List.length. rewrite Hlen.
        change (S (List.length l2)) with (List.length (first2 :: l2)).
        rewrite nth_error_app2, Nat.sub_diag by lia. reflexivity.
    + exists i. split.
      * change (first1 :: (l1 ++ [x1])%list) with ((first1 :: l1) ++ [x1])%list.
        rewrite nth_error_app1 by assumption. exact H1.
      * change (first2 :: (l2 ++ [x2])%list) with ((first2 :: l2) ++ [x2])%list.
        rewrite nth_error_app1 by (simpl in *; lia). exact H2.
Qed.

Lemma find_same_index version entries1 : forall entries2,
  map Version entries1 = map Version entries2 ->
  (find (fun b => (Version b =? version)%string) entries1 = None /\
   find (fun b => (Version b =? version)%string) entries2 = None) \/
  exists i b1 b2,
    find (fun b => (Version b =? version)%string) entries1 = Some b1 /\
    find (fun b => (Version b =? version)%string) entries2 = Some b2 /\
    nth_error entries1 i = Some b1 /\ nth_error entries2 i = Some b2.
Proof.
  induction entries1 as [|a1 l1 IH]; intros [|a2 l2] Hm; try discriminate Hm.
  - left. split; reflexivity.
  - simpl in Hm. injection Hm as Ha Hm. simpl. rewrite Ha.
    destruct (Version a2 =? version)%string.
    + right. exists 0%nat, a1, a2. repeat split.
    + destruct (IH l2 Hm) as [[H1 H2]|(i & b1 & b2 & H1 & H2 & H3 & H4)].
      * left. split; assumption.
      * right. exists (S i), b1, b2. repeat split; assumption.
Qed.

(** X18.  The entry [LocateBuildpack] picks depends on the versions of
    the entries only.  Two resolutions that ask for the same version over
    entry lists with the same versions, in any two environments, either both
    fail or return the entries at the same position, whatever the
    namespaces, names, yanked flags and addresses of the entries are. *)
Theorem LocateBuildpack_selects_by_version
    (L1 L2 : Libs) (O1 O2 : OS) r1 r2 bp1 bp2 ns1 name1 ns2 name2 version
    (st1 sa1 sb1 : @State O1) (st2 sa2 sb2 : @State O2) entries1 entries2 :
  @Refresh O1 r1 st1 = (None, sa1) ->
  @ParseRegistryID L1 bp1 = Ok (ns1, name1, version) ->
  @readEntry L1 O1 r1 ns1 name1 version sa1
    = (({| Buildpacks := entries1 |}, None), sb1) ->
  @Refresh O2 r2 st2 = (None, sa2) ->
  @ParseRegistryID L2 bp2 = Ok (ns2, name2, version) ->
  @readEntry L2 O2 r2 ns2 name2 version sa2
    = (({| Buildpacks := entries2 |}, None), sb2) ->
  map Version entries1 = map Version entries2 ->
  (exists i b1 b2,
     @LocateBuildpack L1 O1 r1 bp1 st1 = ((b1, None), sb1) /\
     @LocateBuildpack L2 O2 r2 bp2 st2 = ((b2, None), sb2) /\
     nth_error entries1 i = Some b1 /\ nth_error entries2 i = Some b2) \/
  (snd (fst (@LocateBuildpack L1 O1 r1 bp1 st1)) <> None /\
   snd (fst (@LocateBuildpack L2 O2 r2 bp2 st2)) <> None).
Proof.
  intros HR1 HP1 HE1 HR2 HP2 HE2 Hm.
  rewrite (@LocateBuildpack_selected L1 O1 _ _ _ _ _ _ _ _ _ HR1 HP1 HE1).
  rewrite (@LocateBuildpack_selected L2 O2 _ _ _ _ _ _ _ _ _ HR2 HP2 HE2).
  destruct entries1 as [|f1 o1]; destruct entries2 as [|f2 o2]; try discriminate Hm.
  - right. split; simpl; discriminate.
  - unfold selected. destruct (version =? "")%string.
    + left. destruct (higher_same_index o1 o2 f1 f2 Hm) as (i & H1 & H2).
      exists i, (fold_left higher o1 f1), (fold_left higher o2 f2). auto.
    + destruct (find_same_index version (f1 :: o1) (f2 :: o2) Hm)
        as [[H1 H2]|(i & b1 & b2 & H1 & H2 & H3 & H4)].
      * right. rewrite H1, H2. split; simpl; discriminate.
      * left. rewrite H1, H2. exists i, b1, b2. auto.
Qed.

(* ================================================================= *)
(** ** The constructors *)

Section MoreLocator.

Context {L : Libs} {O : OS} {D : Digest}.

(** X20.  [NewRegistryCache] only looks whether [home] exists.  It makes
    the single call [os.Stat(home)]; when that fails it returns the error as
    it is with the zero cache; otherwise it returns a cache with the given
    URL whose root is [home] joined with "registry-" and the digest of the
    URL, so that the root is the same in every state of the world.
    [NewDefaultRegistryCache] is the same for the default URL. *)
Theorem NewRegistryCache_root_from_url home registryURL st :
  trace (snd (NewRegistryCache home registryURL st)) = (trace st ++ [Call_Stat home])%list /\
  (forall err, fst (os_Stat home st) = Some err ->
     fst (NewRegistryCache home registryURL st) = (RegistryCache_zero, Some err)) /\
  (fst (os_Stat home st) = None ->
     fst (NewRegistryCache home registryURL st) =
       ({| URL := registryURL;
           Root := filepath_Join [home; "registry-" ++ sha256_hex registryURL] |}, None)) /\
  (forall st' c c',
     fst (NewRegistryCache home registryURL st) = (c, None) ->
     fst (NewRegistryCache home registryURL st') = (c', None) ->
     c = c') /\
  NewDefaultRegistryCache home st
    = NewRegistryCache home "https://github.com/buildpacks/registry-index" st.
Proof.
  unfold NewDefaultRegistryCache, NewRegistryCache, bind.
  destruct (os_Stat home st) as [[err|] s1] eqn:HS;
    pose proof (call_trace_eq _ _ _ _ _ HS) as HT; simpl.
  - repeat split; auto; try discriminate.
    intros e He; injection He as <-. reflexivity.
  - repeat split; auto; try discriminate.
    intros st' c c' Hc. injection Hc as <-.
    destruct (os_Stat home st') as [[err|] s1']; simpl; intros Hc'; [discriminate|].
    injection Hc' as <-. reflexivity.
Qed.

End MoreLocator.

(* ================================================================= *)
(** ** The theorems on the sample environment *)

#[local] Existing Instances Sim.libs Sim.os.

(** On a mirror with a foreign origin, [Initialize] removes the root and
    clones the registry again. *)
Lemma Initialize_resets_invalid_mirror_witness :
  os_Stat Run.root (Sim.start Sim.foreign)
    = (None, snd (os_Stat Run.root (Sim.start Sim.foreign))) /\
  invalid_mirror Sim.cache (snd (os_Stat Run.root (Sim.start Sim.foreign))) /\
  fst (Initialize Sim.cache (Sim.start Sim.foreign)) = None /\
  trace (snd (Initialize Sim.cache (Sim.start Sim.foreign))) =
    [Call_Stat Run.root; Call_PlainOpen Run.root; Call_Remotes;
     Call_RemoveAll Run.root; Call_TempDir "" "registry";
     Call_PlainClone "/tmp/registry1" false Sim.registryURL; Call_Worktree;
     Call_Rename "/tmp/registry1" Run.root].
Proof.
  assert (H1 : os_Stat Run.root (Sim.start Sim.foreign)
               = (None, snd (os_Stat Run.root (Sim.start Sim.foreign))))
    by reflexivity.
  assert (H2 : invalid_mirror Sim.cache (snd (os_Stat Run.root (Sim.start Sim.foreign)))).
  { eapply invalid_origin with (url := "https://example.org/other-index");
      [reflexivity | reflexivity | reflexivity | discriminate]. }
  split; [exact H1|]. split; [exact H2|].
  destruct (@Initialize_resets_invalid_mirror Sim.os Sim.cache _ _ H1 H2)
    as (verr & st2 & HV & _ & H).
  injection HV as <- <-. destruct H as [_ H]. rewrite H. split; reflexivity.
Defined.

(** Without mirror, a clone that comes with two remotes is validated,
    removed and cloned again, and the second clone is not validated. *)
Lemma Initialize_validates_fresh_mirror_witness :
  os_Stat Run.root (Sim.start Sim.forked)
    = (Some (os_ErrNotExist Run.root), snd (os_Stat Run.root (Sim.start Sim.forked))) /\
  createCache Sim.cache (snd (os_Stat Run.root (Sim.start Sim.forked)))
    = (None, snd (createCache Sim.cache (snd (os_Stat Run.root (Sim.start Sim.forked))))) /\
  fst (Initialize Sim.cache (Sim.start Sim.forked)) = None /\
  trace (snd (Initialize Sim.cache (Sim.start Sim.forked))) =
    [Call_Stat Run.root; Call_TempDir "" "registry";
     Call_PlainClone "/tmp/registry1" false Sim.registryURL; Call_Worktree;
     Call_Rename "/tmp/registry1" Run.root;
     Call_PlainOpen Run.root; Call_Remotes; Call_RemoveAll Run.root;
     Call_TempDir "" "registry";
     Call_PlainClone "/tmp/registry2" false Sim.registryURL; Call_Worktree;
     Call_Rename "/tmp/registry2" Run.root].
Proof.
  assert (H1 : os_Stat Run.root (Sim.start Sim.forked)
               = (Some (os_ErrNotExist Run.root),
                  snd (os_Stat Run.root (Sim.start Sim.forked))))
    by reflexivity.
  assert (H3 : createCache Sim.cache (snd (os_Stat Run.root (Sim.start Sim.forked)))
               = (None, snd (createCache Sim.cache
                               (snd (os_Stat Run.root (Sim.start Sim.forked))))))
    by reflexivity.
  split; [exact H1|]. split; [exact H3|].
  pose proof (@Initialize_validates_fresh_mirror Sim.os Sim.cache _ _ _ _
                H1 eq_refl H3) as H.
  hnf in H. destruct H as [_ H]. hnf in H. destruct H as [H _].
  rewrite H. split; reflexivity.
Defined.

(** The entry without address is resolved although [Validate] refuses it. *)
Lemma LocateBuildpack_returns_unvalidated_entry : ~ resolved_entries_are_validated.
Proof.
  intros H.
  assert (E : @LocateBuildpack Sim.libs Sim.os Sim.cache "example/java" Run.unaddressed
              = ((Sim.java_noaddr, None),
                 snd (@LocateBuildpack Sim.libs Sim.os Sim.cache "example/java"
                        Run.unaddressed)))
    by reflexivity.
  apply H in E. discriminate E.
Qed.

Lemma LocateBuildpack_returns_collected_entry_witness :
  exists ns name version st1 entry text,
    Refresh Sim.cache Run.unaddressed = (None, st1) /\
    ParseRegistryID "example/java" = Ok (ns, name, version) /\
    readEntry Sim.cache ns name version st1
      = ((entry, None), snd (LocateBuildpack Sim.cache "example/java" Run.unaddressed)) /\
    In Sim.java_noaddr (Buildpacks entry) /\
    json_Unmarshal text = Ok Sim.java_noaddr.
Proof.
  apply (@LocateBuildpack_returns_collected_entry Sim.libs Sim.os). reflexivity.
Defined.

(** Of the versions 1.0.0, 2.1.0 (yanked) and 1.9.9 the second is returned. *)
Lemma LocateBuildpack_highest_version_witness :
  fst (LocateBuildpack Sim.cache "example/java" Run.three) = (Sim.java_2_1_0, None) /\
  Yanked Sim.java_2_1_0 = true.
Proof.
  split; [|reflexivity].
  destruct (@LocateBuildpack_highest_version Sim.libs Sim.os Sim.cache "example/java"
              "example" "java" Run.three
              (snd (Refresh Sim.cache Run.three))
              (snd (LocateBuildpack Sim.cache "example/java" Run.three))
              [Sim.java_1_0_0; Sim.java_2_1_0; Sim.java_1_9_9])
    as (i & h & HL & Hi & _ & _ & Hex);
    [reflexivity | reflexivity | reflexivity | discriminate | ].
  rewrite (Hex eq_refl) in Hi. injection Hi as <-. rewrite HL. reflexivity.
Defined.

(** Of the versions edge and nightly the first is returned. *)
Lemma LocateBuildpack_unparsable_versions_witness :
  fst (LocateBuildpack Sim.cache "example/java" Run.named) = (Sim.java_edge, None).
Proof.
  destruct (@LocateBuildpack_unparsable_versions Sim.libs Sim.os Sim.cache "example/java"
              "example" "java" Run.named
              (snd (Refresh Sim.cache Run.named))
              (snd (LocateBuildpack Sim.cache "example/java" Run.named))
              [Sim.java_edge; Sim.java_nightly])
    as (_ & first & Hf & HL);
    [reflexivity | reflexivity | reflexivity | discriminate | | ].
  - intros b [<-|[<-|[]]]; reflexivity.
  - injection Hf as <-. rewrite HL. reflexivity.
Defined.

(** The version 1.9.9 is found in the third place; 1.9 is not found. *)
Lemma LocateBuildpack_exact_version_witness :
  fst (LocateBuildpack Sim.cache "example/java@1.9.9" Run.three)
    = (Sim.java_1_9_9, None).
Proof.
  destruct (@LocateBuildpack_exact_version Sim.libs Sim.os Sim.cache "example/java@1.9.9"
              "example" "java" "1.9.9" Run.three
              (snd (Refresh Sim.cache Run.three))
              (snd (LocateBuildpack Sim.cache "example/java@1.9.9" Run.three))
              [Sim.java_1_0_0; Sim.java_2_1_0; Sim.java_1_9_9])
    as [(i & h & HL & Hi & Hv & _) | (Hnone & _)];
    [reflexivity | reflexivity | discriminate | reflexivity | discriminate | | ].
  - rewrite HL. destruct i as [|[|[|i]]]; simpl in Hi.
    + injection Hi as <-. discriminate Hv.
    + injection Hi as <-. discriminate Hv.
    + injection Hi as <-. reflexivity.
    + destruct i; discriminate Hi.
  - exfalso. apply (Hnone Sim.java_1_9_9); simpl; auto.
Defined.

(** An index file without lines gives the error on the coordinate. *)
Lemma LocateBuildpack_no_entries_witness :
  fst (LocateBuildpack Sim.cache "example/java" Run.blank)
    = (Buildpack_zero, Some (errors_New "no entries for buildpack: example/java")).
Proof.
  edestruct (@LocateBuildpack_no_entries Sim.libs Sim.os Sim.cache "example/java"
               "example" "java" "" Run.blank)
    as [HL _]; [reflexivity | reflexivity | reflexivity | reflexivity | reflexivity
               | reflexivity | ].
  rewrite HL. reflexivity.
Defined.

(** A line that is no JSON after a line that is one: the caller gets the
    zero value and an error. *)
Lemma LocateBuildpack_read_failure_witness :
  exists err,
    fst (LocateBuildpack Sim.cache "example/java" Run.broken)
      = (Buildpack_zero, Some (errors_Wrap err "reading entry")).
Proof.
  edestruct (@LocateBuildpack_read_failure Sim.libs Sim.os Sim.cache "example/java"
               "example" "java" "" Run.broken)
    as (err & HL); [reflexivity | reflexivity | reflexivity | reflexivity | reflexivity
                   | reflexivity | | ].
  - left. exists "oops". eexists. split; [right; left; reflexivity | reflexivity].
  - exists err. rewrite HL. reflexivity.
Defined.

(** The directories of names of lengths 1 to 5, with the sample [join]. *)
Lemma indexDir_shard_witness :
  map indexDir ["a"; "ab"; "abc"; "abcd"; "abcde"] = ["a"; "ab"; "ab/c"; "ab/cd"; "ab/cd"].
Proof.
  destruct (@indexDir_shard Sim.libs Sim.os) as (_ & _ & _ & _ & _ & H1 & H2 & H3 & H4 & H5).
  simpl map. rewrite H1, H2, H3, H4, H5. reflexivity.
Defined.

(** A digest reference passes, a tag and an empty address do not. *)
Lemma Validate_digest_reference_witness :
  Validate Sim.java_1_0_0 = None /\
  Validate Sim.java_tagged
    = Some (errors_New "'gcr.io/example/java:latest' is not a digest reference") /\
  Validate Sim.java_noaddr = Some (errors_New "address is a required field").
Proof.
  split; [|split].
  - apply (proj1 (@Validate_digest_reference Sim.libs Sim.java_1_0_0)).
    split; [discriminate | split; reflexivity].
  - destruct (@Validate_digest_reference Sim.libs Sim.java_tagged) as (_ & _ & _ & H).
    eapply H; [discriminate | reflexivity | reflexivity].
  - destruct (@Validate_digest_reference Sim.libs Sim.java_noaddr) as (_ & H & _).
    apply H. reflexivity.
Defined.

(* ================================================================= *)
(** ** The further theorems on the sample environments *)


(** A valid mirror is left as it is. *)
Lemma Initialize_valid_mirror_untouched_witness :
  Initialize Sim.cache Run2.unindexed
    = (None, snd (Initialize Sim.cache Run2.unindexed)) /\
  trace (snd (Initialize Sim.cache Run2.unindexed)) =
    [Call_Stat Run.root; Call_PlainOpen Run.root; Call_Remotes].
Proof.
  destruct (@Initialize_valid_mirror_untouched Sim.os Sim.cache Run2.unindexed
              (snd (os_Stat Run.root Run2.unindexed)) Run.root
              (snd (git_PlainOpen Run.root (snd (os_Stat Run.root Run2.unindexed))))
              {| Config_URLs := [Sim.registryURL] |}
              (snd (Initialize Sim.cache Run2.unindexed)))
    as [HI HT]; [reflexivity | reflexivity | reflexivity | reflexivity | ].
  split; [exact HI | exact HT].
Defined.

(** Without mirror and without network the creation fails and nothing else
    is tried. *)
Lemma Initialize_creation_failure_witness :
  Initialize Sim.cache Run2.offline =
    (Some (errors_Wrap (external_error "repository not found")
             "could not create registry cache"),
     snd (Initialize Sim.cache Run2.offline)) /\
  trace (snd (Initialize Sim.cache Run2.offline)) =
    [Call_Stat Run.root; Call_TempDir "" "registry";
     Call_PlainClone "/tmp/registry1" false Sim.registryURL].
Proof.
  destruct (@Initialize_creation_failure Sim.os Sim.cache Run2.offline
              (os_ErrNotExist Run.root) (snd (os_Stat Run.root Run2.offline))
              (external_error "repository not found")
              (snd (Initialize Sim.cache Run2.offline)))
    as [HI _]; [reflexivity | reflexivity | reflexivity | ].
  split; [exact HI | reflexivity].
Defined.

(** A root that cannot be inspected but holds a valid mirror: the error of
    [os.Stat] is dropped. *)
Lemma Initialize_stat_error_dropped_witness :
  @os_Stat Denied.os Run.root Denied.sealed
    = (Some (external_error "permission denied"),
       snd (@os_Stat Denied.os Run.root Denied.sealed)) /\
  @Initialize Denied.os Sim.cache Denied.sealed
    = (None, snd (@Initialize Denied.os Sim.cache Denied.sealed)).
Proof.
  assert (H : @os_Stat Denied.os Run.root Denied.sealed
              = (Some (external_error "permission denied"),
                 snd (@os_Stat Denied.os Run.root Denied.sealed))) by reflexivity.
  split; [exact H|].
  destruct (@Initialize_stat_error_dropped Denied.os Sim.cache _ _ _ H eq_refl)
    as [_ HV].
  apply HV. reflexivity.
Defined.

(** The index of three lines is opened, scanned and closed. *)
Lemma readEntry_closes_opened_file_witness :
  trace (snd (readEntry Sim.cache "example" "java" "" Run.three)) =
    [Call_Stat Sim.javaIndex; Call_Open Sim.javaIndex; Call_Scan; Call_Close].
Proof.
  apply (@readEntry_closes_opened_file Sim.libs Sim.os Sim.cache "example" "java" ""
           Run.three (snd (os_Stat Sim.javaIndex Run.three)) Sim.javaIndex
           (snd (os_Open Sim.javaIndex (snd (os_Stat Sim.javaIndex Run.three)))));
    reflexivity.
Defined.

Lemma readEntry_collects_lines_in_order_witness :
  fst (readEntry Sim.cache "example" "java" "" Run.three) =
    ({| Buildpacks := [Sim.java_1_0_0; Sim.java_2_1_0; Sim.java_1_9_9] |}, None).
Proof.
  erewrite (@readEntry_collects_lines_in_order Sim.libs Sim.os Sim.cache "example" "java" ""
              Run.three);
    [reflexivity | reflexivity | reflexivity | reflexivity | reflexivity
    | repeat constructor].
Defined.

(** After one line the scanner fails: the entry of that line comes back
    with the error. *)
Lemma readEntry_scan_error_keeps_entries_witness :
  fst (readEntry Sim.cache "example" "java" "" Run2.truncated) =
    ({| Buildpacks := [Sim.java_1_0_0] |},
     Some (errors_Wrap (external_error "unexpected EOF")
             "could not read index for buildpack: example/java")).
Proof.
  erewrite (@readEntry_scan_error_keeps_entries Sim.libs Sim.os Sim.cache "example" "java" ""
              Run2.truncated);
    [reflexivity | reflexivity | reflexivity | reflexivity | reflexivity
    | repeat constructor].
Defined.

(** The second line is no JSON: the entry of the first line is dropped. *)
Lemma readEntry_first_bad_line_witness :
  fst (readEntry Sim.cache "example" "java" "" Run.broken) =
    (Entry_zero,
     Some (errors_Wrap (external_error "invalid character looking for beginning of value")
             "could not parse index for buildpack: example/java")).
Proof.
  erewrite (@readEntry_first_bad_line Sim.libs Sim.os Sim.cache "example" "java" ""
              Run.broken _ _ _ ["{java 1.0.0}"] "oops" []);
    [reflexivity | reflexivity | reflexivity | reflexivity | reflexivity
    | repeat constructor | reflexivity].
Defined.

(** A coordinate without slash is refused after the refresh. *)
Lemma LocateBuildpack_refreshes_before_parsing_witness :
  LocateBuildpack Sim.cache "java" Run.three =
    ((Buildpack_zero, Some (errors_New "invalid registry ID: java")),
     snd (Refresh Sim.cache Run.three)) /\
  trace (snd (Refresh Sim.cache Run.three)) =
    [Call_Stat Run.root; Call_PlainOpen Run.root; Call_Remotes;
     Call_PlainOpen Run.root; Call_Worktree; Call_Pull "origin"].
Proof.
  split; [|reflexivity].
  rewrite (@LocateBuildpack_refreshes_before_parsing Sim.libs Sim.os Sim.cache "java"
             Run.three (errors_New "invalid registry ID: java") eq_refl).
  reflexivity.
Defined.

Lemma LocateBuildpack_error_returns_zero_witness :
  snd (fst (LocateBuildpack Sim.cache "example/java" Run.blank)) <> None /\
  fst (fst (LocateBuildpack Sim.cache "example/java" Run.blank)) = Buildpack_zero.
Proof.
  assert (H : snd (fst (LocateBuildpack Sim.cache "example/java" Run.blank)) <> None)
    by discriminate.
  split; [exact H|].
  exact (@LocateBuildpack_error_returns_zero Sim.libs Sim.os _ _ _ H).
Defined.

(** The same three lines read as entries of another buildpack, with other
    flags and addresses: the second entry is picked in both runs. *)
Lemma LocateBuildpack_selects_by_version_witness :
  fst (@LocateBuildpack Sim.libs Sim.os Sim.cache "example/java" Run.three)
    = (Sim.java_2_1_0, None) /\
  fst (@LocateBuildpack Run2.relabelled Sim.os Sim.cache "example/java" Run.three)
    = (nth 1 Run2.renamed Buildpack_zero, None).
Proof.
  destruct (@LocateBuildpack_selects_by_version Sim.libs Run2.relabelled Sim.os Sim.os
              Sim.cache Sim.cache "example/java" "example/java"
              "example" "java" "example" "java" ""
              Run.three (snd (Refresh Sim.cache Run.three))
              (snd (LocateBuildpack Sim.cache "example/java" Run.three))
              Run.three (snd (Refresh Sim.cache Run.three))
              (snd (LocateBuildpack Sim.cache "example/java" Run.three))
              [Sim.java_1_0_0; Sim.java_2_1_0; Sim.java_1_9_9] Run2.renamed)
    as [(i & b1 & b2 & H1 & H2 & H3 & H4)|[Hn _]];
    [reflexivity | reflexivity | reflexivity | reflexivity | reflexivity | reflexivity
    | reflexivity | | ].
  - split; [reflexivity|]. rewrite H2.
    pose proof H1 as H1'. vm_compute in H1'. injection H1' as Hb. subst b1.
    destruct i as [|[|[|i]]]; simpl in H3, H4; try discriminate H3;
      [injection H4 as <-; reflexivity | destruct i; discriminate H3].
  - exfalso. apply Hn. reflexivity.
Defined.

(** A resolution on the valid mirror makes ten calls, none of which
    changes the disk. *)
Lemma LocateBuildpack_valid_mirror_quiet_witness :
  exists calls,
    trace (snd (LocateBuildpack Sim.cache "example/java" Run.three))
      = (trace Run.three ++ calls)%list /\
    quiet calls /\ List.length calls = 10%nat.
Proof.
  destruct (@LocateBuildpack_valid_mirror_quiet Sim.libs Sim.os Sim.cache "example/java"
              Run.three (snd (os_Stat Run.root Run.three)) Run.root
              (snd (git_PlainOpen Run.root (snd (os_Stat Run.root Run.three))))
              {| Config_URLs := [Sim.registryURL] |}
              (snd (Initialize Sim.cache Run.three)))
    as (calls & Ht & Hq); [reflexivity | reflexivity | reflexivity | reflexivity | ].
  exists calls. repeat split; try assumption.
  simpl in Ht. rewrite <- Ht. reflexivity.
Defined.

(** The cache of the default registry under [/home/pack]. *)
Lemma NewRegistryCache_root_from_url_witness :
  fst (@NewDefaultRegistryCache Sim.libs Sim.os Run2.digest "/home/pack"
         (Sim.start {| Sim.dirs := [("/home/pack", [])]; Sim.files := []; Sim.net := [];
                       Sim.tmp := []; Sim.locked := [] |}))
    = (Sim.cache, None).
Proof.
  destruct (@NewRegistryCache_root_from_url Sim.libs Sim.os Run2.digest "/home/pack"
              Sim.registryURL
              (Sim.start {| Sim.dirs := [("/home/pack", [])]; Sim.files := [];
                            Sim.net := []; Sim.tmp := []; Sim.locked := [] |}))
    as (_ & _ & H & _ & _).
  unfold NewDefaultRegistryCache. change defaultRegistryURL with Sim.registryURL.
  rewrite (H eq_refl). reflexivity.
Defined.
